(** * Pure Storage FlashBlade share driver for OpenStack Manila

    A shallow embedding of [manila/share/drivers/purestorage/flashblade.py]
    and the properties of its lifecycle operations.

    The driver is a control-plane adapter: every method talks to the array
    through the [purity_fb] SDK, may log, and may raise.  Methods are
    therefore embedded in a small state-and-exception monad whose state is
    the list of SDK calls issued so far together with the log; the array
    itself is an external collaborator and enters as a record of reply
    functions. *)

From Stdlib Require Import ZArith QArith Qpower Qfield.
From Stdlib Require Import Floats.SpecFloat.
From stdpp Require Import base option list strings gmap.

Local Open Scope string_scope.
Local Open Scope list_scope.
Local Open Scope Z_scope.

(** ** Constants of the libraries the driver imports *)

(** [oslo_utils.units]: binary gibibyte. *)
Module units.
Definition Gi : Z := 2 ^ 30.
End units.

(** [manila.common.constants]: the orchestrator's access-level vocabulary. *)
Module constants.
Definition ACCESS_LEVEL_RW : string := "rw".
Definition ACCESS_LEVEL_RO : string := "ro".
End constants.

(** ** Exceptions

    The classes the driver names, from [manila.exception], [purity_fb.rest]
    and the Python builtins its statements can raise.  None of the named
    manila classes derives from another one of them, so an [except C] clause
    is a match on the constructor.  [OtherError] stands for anything else:
    what the SDK may let escape (transport errors and the like) and the
    builtin errors of float arithmetic, named in its string. *)
Inductive exn : Type :=
  | ApiException (str : string)                (* purity_fb.rest.ApiException *)
  | ShareBackendException (msg : string)
  | ShareResourceNotFound (share_id : string)
  | ShareSnapshotNotFound (snapshot_id : string)
  | InvalidShare (reason : string)
  | InvalidShareAccessLevel (level : string)
  | IndexError
  | UnboundLocalError (var : string)
  | OtherError (str : string).

(** ** Orchestrator records (read-only inputs) *)

Record Share : Type := mkShare {
  share_id : string;          (* share['id'] *)
  share_size : Z;             (* share['size'], GiB *)
  share_proto : string        (* share['share_proto'] *)
}.

Record Snapshot : Type := mkSnapshot {
  snapshot_id : string;                 (* snapshot['id'] *)
  snapshot_share_instance_id : string   (* snapshot['share_instance_id'] *)
}.

Record Access : Type := mkAccess {
  access_type : string;
  access_to : string;
  access_level : string
}.

(** ** Array-side objects of the SDK

    [purity_fb] model classes take keyword arguments that all default to
    [None]; an attribute left out by the driver is [None] here as well. *)

Record NfsRule : Type := mkNfsRule {
  nfs_enabled : option bool;
  nfs_v3_enabled : option bool;
  nfs_v4_1_enabled : option bool;
  nfs_rules : option string
}.

Record ProtocolRule : Type := mkProtocolRule {
  proto_enabled : option bool
}.

Record FileSystem : Type := mkFileSystem {
  fs_name : option string;
  fs_provisioned : option Z;
  fs_hard_limit_enabled : option bool;
  fs_fast_remove_directory_enabled : option bool;
  fs_snapshot_directory_enabled : option bool;
  fs_nfs : option NfsRule;
  fs_smb : option ProtocolRule;
  fs_destroyed : option bool
}.

Record FileSystemSnapshot : Type := mkFileSystemSnapshot {
  snap_name : option string;
  snap_suffix : option string;
  snap_destroyed : option bool
}.

(** [array_space.space] and [array_space] of [list_arrays_space]. *)
Record Space : Type := mkSpace {
  data_reduction : spec_float;            (* a Python float *)
  total_physical : Z;
  unique : Z
}.

Record ArraySpace : Type := mkArraySpace {
  capacity : Z;
  space : Space
}.

(** ** SDK calls and the array *)

Inductive Call : Type :=
  | ListVersions
  | ListArraysSpace
  | ListFileSystems (names : list string)
  | CreateFileSystems (fs : FileSystem)
  | UpdateFileSystems (name : string) (attributes : FileSystem)
  | DeleteFileSystems (name : string)
  | ListFileSystemSnapshots (filter : string)
  | CreateFileSystemSnapshots (sources : list string) (suffix : string)
  | UpdateFileSystemSnapshots (name : string) (attributes : FileSystemSnapshot)
  | DeleteFileSystemSnapshots (name : string).

(** A call changes array state when it is not one of the listings. *)
Definition mutating (c : Call) : bool :=
  match c with
  | ListVersions | ListArraysSpace | ListFileSystems _
  | ListFileSystemSnapshots _ => false
  | _ => true
  end.

(** The two listings behind the resource locators. *)
Definition locator_lookup (c : Call) : bool :=
  match c with
  | ListFileSystems _ | ListFileSystemSnapshots _ => true
  | _ => false
  end.

(** The array answers a call knowing every call issued before it (oldest
    first): any stateful array is such a function of its history.  A reply
    is the value the SDK method returns, or the exception it raises.  An
    element of a listing's [items] may be [None]. *)
Record PurityFb : Type := mkPurityFb {
  on_list_versions : list Call -> exn + list string;
  on_list_arrays_space : list Call -> exn + list ArraySpace;
  on_list_file_systems :
    list Call -> list string -> exn + list (option FileSystem);
  on_create_file_systems : list Call -> FileSystem -> exn + unit;
  on_update_file_systems : list Call -> string -> FileSystem -> exn + unit;
  on_delete_file_systems : list Call -> string -> exn + unit;
  on_list_file_system_snapshots :
    list Call -> string -> exn + list (option FileSystemSnapshot);
  on_create_file_system_snapshots :
    list Call -> list string -> string -> exn + unit;
  on_update_file_system_snapshots :
    list Call -> string -> FileSystemSnapshot -> exn + unit;
  on_delete_file_system_snapshots : list Call -> string -> exn + unit
}.

(** ** The monad of driver methods *)

Inductive Level : Type := DEBUG | WARNING | ERROR | EXCEPTION.

Record World : Type := mkWorld {
  calls : list Call;               (* SDK calls issued, oldest first *)
  logged : list (Level * string)   (* LOG records, oldest first *)
}.

Inductive result (A : Type) : Type :=
  | Returns (a : A)
  | Raises (e : exn).
Arguments Returns {A} a.
Arguments Raises {A} e.

Definition M (A : Type) : Type := World -> result A * World.

Definition ret {A} (a : A) : M A := fun w => (Returns a, w).

Definition raise {A} (e : exn) : M A := fun w => (Raises e, w).

Definition bind {A B} (m : M A) (k : A -> M B) : M B :=
  fun w =>
    match m w with
    | (Returns a, w') => k a w'
    | (Raises e, w') => (Raises e, w')
    end.

(** [try: body  except C: handler]: the clause is a partial function on
    exceptions; one it does not select keeps propagating. *)
Definition try_except {A} (body : M A) (clause : exn -> option (M A)) : M A :=
  fun w =>
    match body w with
    | (Returns a, w') => (Returns a, w')
    | (Raises e, w') =>
        match clause e with
        | Some handler => handler w'
        | None => (Raises e, w')
        end
    end.

Definition LOG (lvl : Level) (msg : string) : M unit :=
  fun w => (Returns tt, mkWorld (calls w) (logged w ++ [(lvl, msg)])).

(** Issue one SDK call: it is recorded whether it returns or raises. *)
Definition invoke {R} (c : Call) (reply : list Call -> exn + R) : M R :=
  fun w =>
    let w' := mkWorld (calls w ++ [c]) (logged w) in
    match reply (calls w) with
    | inr r => (Returns r, w')
    | inl e => (Raises e, w')
    end.

Declare Scope driver_scope.
Delimit Scope driver_scope with driver.
Notation "x <- m ;; k" := (bind m (fun x => k))
  (at level 100, m at next level, right associativity) : driver_scope.
Notation "m ;; k" := (bind m (fun _ => k))
  (at level 100, right associativity) : driver_scope.
Local Open Scope driver_scope.

(** ** The driver object *)

Record FlashBladeShareDriver : Type := mkDriver {
  _sys : PurityFb;
  data_address : string;           (* flashblade_data_vip *)
  flashblade_eradicate : bool;     (* self.configuration.flashblade_eradicate *)
  _backend_name : string
}.

Definition VERSION : string := "10.0".

(** The SDK methods as the driver calls them on [self._sys]. *)
Section Sdk.
Variable self : FlashBladeShareDriver.

Definition list_versions : M (list string) :=
  invoke ListVersions (on_list_versions (_sys self)).

Definition list_arrays_space : M (list ArraySpace) :=
  invoke ListArraysSpace (on_list_arrays_space (_sys self)).

Definition list_file_systems (names : list string)
  : M (list (option FileSystem)) :=
  invoke (ListFileSystems names)
         (fun h => on_list_file_systems (_sys self) h names).

Definition create_file_systems (fs : FileSystem) : M unit :=
  invoke (CreateFileSystems fs)
         (fun h => on_create_file_systems (_sys self) h fs).

Definition update_file_systems (name : string) (attributes : FileSystem)
  : M unit :=
  invoke (UpdateFileSystems name attributes)
         (fun h => on_update_file_systems (_sys self) h name attributes).

Definition delete_file_systems (name : string) : M unit :=
  invoke (DeleteFileSystems name)
         (fun h => on_delete_file_systems (_sys self) h name).

Definition list_file_system_snapshots (filter : string)
  : M (list (option FileSystemSnapshot)) :=
  invoke (ListFileSystemSnapshots filter)
         (fun h => on_list_file_system_snapshots (_sys self) h filter).

Definition create_file_system_snapshots (sources : list string)
    (suffix : string) : M unit :=
  invoke (CreateFileSystemSnapshots sources suffix)
         (fun h => on_create_file_system_snapshots (_sys self) h sources suffix).

Definition update_file_system_snapshots (name : string)
    (attributes : FileSystemSnapshot) : M unit :=
  invoke (UpdateFileSystemSnapshots name attributes)
         (fun h => on_update_file_system_snapshots (_sys self) h name attributes).

Definition delete_file_system_snapshots (name : string) : M unit :=
  invoke (DeleteFileSystemSnapshots name)
         (fun h => on_delete_file_system_snapshots (_sys self) h name).
End Sdk.

(** ** Module-level definitions of the driver *)

Definition _MANILA_TO_FLASHBLADE_ACCESS_LEVEL : gmap string string :=
  {[ constants.ACCESS_LEVEL_RW := "rw"; constants.ACCESS_LEVEL_RO := "ro" ]}.

(** The decorator: an [ApiException] leaving [func] is logged and replaced
    by a [ShareBackendException]; anything else passes through. *)
Definition purity_fb_to_manila_exceptions {A} (func : M A) : M A :=
  try_except func (fun ex =>
    match ex with
    | ApiException str =>
        Some (let msg := "Caught exception from purity_fb: " +:+ str in
              LOG EXCEPTION msg ;;
              raise (ShareBackendException msg))
    | _ => None
    end).

(** ** Naming policy *)

Definition _make_source_name (snapshot : Snapshot) : string :=
  "share-" +:+ snapshot_share_instance_id snapshot +:+ "-manila".

Definition _make_share_name (manila_share : Share) : string :=
  "share-" +:+ share_id manila_share +:+ "-manila".

(** ** Access translator *)

Definition _get_flashblade_access_level (access : Access) : M string :=
  let access_level := access_level access in
  match _MANILA_TO_FLASHBLADE_ACCESS_LEVEL !! access_level with
  | Some level => ret level
  | None (* KeyError *) => raise (InvalidShareAccessLevel access_level)
  end.

(** ** Export paths *)

Definition _get_full_nfs_export_path (self : FlashBladeShareDriver)
    (export_path : string) : M string :=
  purity_fb_to_manila_exceptions
    (let subnet_ip := data_address self in
     ret (subnet_ip +:+ ":/" +:+ export_path)).

(** The Python literal is ['\\{subnet_ip}\{export_path}']: the escape [\\]
    is one backslash, and [\{] is no escape, so it stays a backslash
    followed by the replacement field. *)
Definition _get_full_cifs_export_path (self : FlashBladeShareDriver)
    (export_path : string) : M string :=
  purity_fb_to_manila_exceptions
    (let subnet_ip := data_address self in
     ret ("\" +:+ subnet_ip +:+ "\" +:+ export_path)).

(** ** Capacity reporter *)

Definition _get_available_capacity (self : FlashBladeShareDriver)
    : M (Z * Z * Z * spec_float) :=
  items <- list_arrays_space self ;;
  match items with
  | [] => raise IndexError
  | array_space :: _ =>
      let data_reduction := data_reduction (space array_space) in
      let physical_capacity_bytes := capacity array_space in
      let used_capacity_bytes := total_physical (space array_space) in
      let free_capacity_bytes :=
        physical_capacity_bytes - used_capacity_bytes in
      let provisioned_capacity_bytes := unique (space array_space) in
      ret (free_capacity_bytes, physical_capacity_bytes,
           provisioned_capacity_bytes, data_reduction)
  end.

(** Python floats are IEEE 754 binary64 numbers: [spec_float] with a
    53-bit mantissa and exponent bound 1024.  [float(n)] of an integer is
    the nearest such number, ties to even, and [OverflowError] when that
    is out of range. *)
Definition binary64_of_Z (n : Z) : spec_float :=
  binary_normalize 53 1024 n 0 false.

Definition float (n : Z) : M spec_float :=
  match binary64_of_Z n with
  | S754_infinity _ =>
      raise (OtherError "OverflowError: int too large to convert to float")
  | x => ret x
  end.

(** [x / n] for a float [x] and an integer [n]: [n] is converted, and the
    quotient is the binary64 division. *)
Definition truediv (x : spec_float) (n : Z) : M spec_float :=
  y <- float n ;;
  match y with
  | S754_zero _ =>
      raise (OtherError "ZeroDivisionError: float division by zero")
  | _ => ret (SFdiv 53 1024 x y)
  end.

(** The rational a float stands for; none for infinities and NaN. *)
Definition value (x : spec_float) : option Q :=
  match x with
  | S754_zero _ => Some 0%Q
  | S754_finite s m e =>
      Some (inject_Z (if s then Z.neg m else Z.pos m) * 2 ^ e)%Q
  | _ => None
  end.

(** The float [x] is exactly the rational [q]. *)
Definition exactly (x : spec_float) (q : Q) : Prop :=
  ∃ q', value x = Some q' ∧ (q' == q)%Q.

(** The dict handed to the base class by [_update_share_stats]; the
    keyword arguments are evaluated in the order they are written. *)
Record ShareStats : Type := mkShareStats {
  share_backend_name : string;
  vendor_name : string;
  driver_version : string;
  storage_protocol : string;
  stats_data_reduction : spec_float;
  total_capacity_gb : spec_float;
  free_capacity_gb : spec_float;
  provisioned_capacity_gb : spec_float;
  snapshot_support : bool;
  create_share_from_snapshot_support : bool;
  mount_snapshot_support : bool;
  revert_to_snapshot_support : bool
}.

Definition _update_share_stats (self : FlashBladeShareDriver) : M ShareStats :=
  t <- _get_available_capacity self ;;
  let '(free_capacity_bytes, physical_capacity_bytes,
        provisioned_cap_bytes, data_reduction) := t in
  total_capacity_gb <-
    (x <- float physical_capacity_bytes ;; truediv x units.Gi) ;;
  free_capacity_gb <-
    (x <- float free_capacity_bytes ;; truediv x units.Gi) ;;
  provisioned_capacity_gb <-
    (x <- float provisioned_cap_bytes ;; truediv x units.Gi) ;;
  ret {| share_backend_name := _backend_name self;
         vendor_name := "PURE STORAGE";
         driver_version := VERSION;
         storage_protocol := "NFS_CIFS";
         stats_data_reduction := data_reduction;
         total_capacity_gb := total_capacity_gb;
         free_capacity_gb := free_capacity_gb;
         provisioned_capacity_gb := provisioned_capacity_gb;
         snapshot_support := true;
         create_share_from_snapshot_support := false;
         mount_snapshot_support := false;
         revert_to_snapshot_support := false |}.

(** ** Resource locators *)

Definition _get_flashblade_filesystem_by_name (self : FlashBladeShareDriver)
    (name : string) : M FileSystem :=
  purity_fb_to_manila_exceptions
    (try_except
       (let filesys := [name] in          (* filesys = []; filesys.append(name) *)
        items <- list_file_systems self filesys ;;
        match items with
        | [] => raise IndexError                       (* res.items[0] *)
        | None :: _ =>                                 (* not res.items[0] *)
            let msg := "Filesystem not found on FlashBlade by name: " +:+ name in
            LOG ERROR msg ;;
            raise (ShareResourceNotFound name)
        | Some fs :: _ => ret fs
        end)
       (fun ex =>
          match ex with
          | InvalidShare _ =>
              Some (let msg :=
                      "Filesystem not found on FlashBlade by name: " +:+ name in
                    LOG ERROR msg ;;
                    raise (ShareResourceNotFound name))
          | _ => None
          end)).

Definition _get_flashblade_filesystem (self : FlashBladeShareDriver)
    (manila_share : Share) : M FileSystem :=
  let filesystem_name := _make_share_name manila_share in
  _get_flashblade_filesystem_by_name self filesystem_name.

(** Not decorated, and [resu.items[0]] is returned as it is: no test for an
    empty or [None] first element. *)
Definition _get_flashblade_snapshot_by_name (self : FlashBladeShareDriver)
    (name : string) : M (option FileSystemSnapshot) :=
  items <-
    try_except
      (list_file_system_snapshots self name)
      (fun ex =>
         match ex with
         | InvalidShare _ =>
             Some (let msg :=
                     "Snapshot not found on the FlashBlade by its name: " +:+ name in
                   LOG ERROR msg ;;
                   raise (ShareSnapshotNotFound name))
         | _ => None
         end) ;;
  match items with
  | [] => raise IndexError
  | item :: _ => ret item
  end.

(** ** Lifecycle manager *)

Definition _resize_share (self : FlashBladeShareDriver) (share : Share)
    (new_size : Z) : M unit :=
  purity_fb_to_manila_exceptions
    (let dataset_name := _make_share_name share in
     found <-
       try_except
         (_get_flashblade_filesystem_by_name self dataset_name ;; ret true)
         (fun ex =>
            match ex with
            | ShareResourceNotFound _ =>
                Some (LOG WARNING ("share " +:+ dataset_name +:+
                                   " not found on FlashBlade, skip extend") ;;
                      ret false)
            | _ => None
            end) ;;
     if found : bool then
       let n_attr :=
         {| fs_name := None; fs_provisioned := Some (new_size * units.Gi);
            fs_hard_limit_enabled := None;
            fs_fast_remove_directory_enabled := None;
            fs_snapshot_directory_enabled := None;
            fs_nfs := None; fs_smb := None; fs_destroyed := None |} in
       update_file_systems self dataset_name n_attr
     else ret tt (* return *)).

(** The loop of [_update_nfs_access] that renders the rule string. *)
Fixpoint render_nfs_rules (access_rules : list Access) (nfs_rules : string)
    : M string :=
  match access_rules with
  | [] => ret nfs_rules
  | access :: rest =>
      if String.eqb (access_type access) "ip" then
        level <- _get_flashblade_access_level access ;;
        let line := ((access_to access +:+ "(") +:+ level)
                      +:+ ",no_root_squash) " in
        render_nfs_rules rest (nfs_rules +:+ line)
      else render_nfs_rules rest nfs_rules
  end.

Definition _update_nfs_access (self : FlashBladeShareDriver) (share : Share)
    (access_rules : list Access) : M unit :=
  purity_fb_to_manila_exceptions
    (let dataset_name := _make_share_name share in
     found <-
       try_except
         (_get_flashblade_filesystem_by_name self dataset_name ;; ret true)
         (fun ex =>
            match ex with
            | ShareResourceNotFound _ =>
                Some (LOG WARNING ("share " +:+ dataset_name +:+
                        " not found on FlashBlade, skip update nfs access") ;;
                      ret false)
            | _ => None
            end) ;;
     if found : bool then
       nfs_rules <- render_nfs_rules access_rules "" ;;
       LOG ERROR ("rules are " +:+ nfs_rules +:+ ", info update nfs access") ;;
       update_file_systems self dataset_name
         {| fs_name := None; fs_provisioned := None;
            fs_hard_limit_enabled := None;
            fs_fast_remove_directory_enabled := None;
            fs_snapshot_directory_enabled := None;
            fs_nfs := Some (mkNfsRule None None None (Some nfs_rules));
            fs_smb := None; fs_destroyed := None |}
     else ret tt (* return *)).

Definition create_share (self : FlashBladeShareDriver) (share : Share)
    : M string :=
  purity_fb_to_manila_exceptions
    (let size := share_size share * units.Gi in
     let share_name := _make_share_name share in
     if String.eqb (share_proto share) "NFS" then
       versions <- list_versions self ;;
       let flashblade_fs :=
         if bool_decide ("1.6" ∈ versions) then
           {| fs_name := Some share_name; fs_provisioned := Some size;
              fs_hard_limit_enabled := Some true;
              fs_fast_remove_directory_enabled := Some true;
              fs_snapshot_directory_enabled := Some true;
              fs_nfs := Some {| nfs_enabled := None;
                                nfs_v3_enabled := Some true;
                                nfs_v4_1_enabled := Some true;
                                nfs_rules := Some "" |};
              fs_smb := None; fs_destroyed := None |}
         else
           {| fs_name := Some share_name; fs_provisioned := Some size;
              fs_hard_limit_enabled := Some true;
              fs_fast_remove_directory_enabled := Some true;
              fs_snapshot_directory_enabled := Some true;
              fs_nfs := Some {| nfs_enabled := Some true;
                                nfs_v3_enabled := None;
                                nfs_v4_1_enabled := None;
                                nfs_rules := Some "" |};
              fs_smb := None; fs_destroyed := None |} in
       create_file_systems self flashblade_fs ;;
       location <- _get_full_nfs_export_path self share_name ;;
       ret location
     else if String.eqb (share_proto share) "CIFS" then
       let flashblade_fs :=
         {| fs_name := Some share_name; fs_provisioned := Some size;
            fs_hard_limit_enabled := Some true;
            fs_fast_remove_directory_enabled := Some true;
            fs_snapshot_directory_enabled := Some true;
            fs_nfs := None;
            fs_smb := Some {| proto_enabled := Some true |};
            fs_destroyed := None |} in
       create_file_systems self flashblade_fs ;;
       location <- _get_full_cifs_export_path self share_name ;;
       ret location
     else
       let message :=
         "Unsupported share protocol: " +:+ share_proto share +:+ "." in
       LOG ERROR message ;;
       raise (InvalidShare message)).

Definition create_snapshot (self : FlashBladeShareDriver)
    (snapshot : Snapshot) : M unit :=
  purity_fb_to_manila_exceptions
    (let flashblade_filesystem := _make_source_name snapshot in
     let source := [flashblade_filesystem] in
     try_except
       (create_file_system_snapshots self source (snapshot_id snapshot))
       (fun ex =>
          match ex with
          | ShareResourceNotFound _ =>
              Some (LOG ERROR ("share " +:+ flashblade_filesystem +:+
                               " not found on FlashBlade, skip create") ;;
                    (* reason is the message template, not the rendering *)
                    raise (InvalidShare
                      "share %(dataset_name)s not found on FlashBlade, skip create"))
          | _ => None
          end)).

(** The attributes of the combined soft-delete update of a file system. *)
Definition destroy_file_system : FileSystem :=
  {| fs_name := None; fs_provisioned := None;
     fs_hard_limit_enabled := None;
     fs_fast_remove_directory_enabled := None;
     fs_snapshot_directory_enabled := None;
     fs_nfs := Some {| nfs_enabled := None;
                       nfs_v3_enabled := Some false;
                       nfs_v4_1_enabled := Some false;
                       nfs_rules := None |};
     fs_smb := Some {| proto_enabled := Some false |};
     fs_destroyed := Some true |}.

Definition delete_share (self : FlashBladeShareDriver) (share : Share)
    : M unit :=
  purity_fb_to_manila_exceptions
    (let dataset_name := _make_share_name share in
     found <-
       try_except
         (_get_flashblade_filesystem_by_name self dataset_name ;; ret true)
         (fun ex =>
            match ex with
            | ShareResourceNotFound _ =>
                Some (LOG WARNING ("share " +:+ dataset_name +:+
                                   " not found on FlashBlade, skip delete") ;;
                      ret false)
            | _ => None
            end) ;;
     if found : bool then
       update_file_systems self dataset_name destroy_file_system ;;
       if flashblade_eradicate self then
         delete_file_systems self dataset_name
       else ret tt
     else ret tt (* return *)).

(** The [except] clause of [delete_snapshot] names [ShareResourceNotFound],
    and its handler reads [flashblade_snapshot], which is unbound whenever the
    handler runs (the assignment in the [try] did not complete): evaluating
    the arguments of [LOG.warning] raises [UnboundLocalError] before anything
    is logged or returned. *)
Definition delete_snapshot (self : FlashBladeShareDriver)
    (snapshot : Snapshot) : M unit :=
  purity_fb_to_manila_exceptions
    (let dataset_name := _make_source_name snapshot in
     let filt := "source='" +:+ dataset_name +:+ "' and suffix='" +:+
                 snapshot_id snapshot +:+ "'" in
     let name := dataset_name +:+ "," +:+ snapshot_id snapshot in
     found <-
       try_except
         (flashblade_snapshot <- _get_flashblade_snapshot_by_name self filt ;;
          ret true)
         (fun ex =>
            match ex with
            | ShareResourceNotFound _ =>
                Some (raise (UnboundLocalError "flashblade_snapshot"))
            | _ => None
            end) ;;
     if found : bool then
       update_file_system_snapshots self name
         {| snap_name := None; snap_suffix := None;
            snap_destroyed := Some true |} ;;
       if flashblade_eradicate self then
         delete_file_system_snapshots self name
       else ret tt
     else ret tt).

(** Dummy: every share created on a FlashBlade is exported. *)
Definition ensure_share (self : FlashBladeShareDriver) (share : Share)
    : M unit := ret tt.

(** [add_rules] and [delete_rules] are ignored: the whole of [access_rules]
    is applied.  Nothing is done for a protocol other than NFS. *)
Definition update_access (self : FlashBladeShareDriver) (share : Share)
    (access_rules add_rules delete_rules : list Access) : M unit :=
  if String.eqb (share_proto share) "NFS" then
    _update_nfs_access self share access_rules
  else ret tt.

Definition get_network_allocations_number (self : FlashBladeShareDriver) : Z := 0.

Definition extend_share (self : FlashBladeShareDriver) (share : Share)
    (new_size : Z) : M unit :=
  _resize_share self share new_size.

Definition shrink_share (self : FlashBladeShareDriver) (share : Share)
    (new_size : Z) : M unit :=
  _resize_share self share new_size.

(** The orchestrator-facing surface, as one type of requests. *)
Inductive Operation : Type :=
  | CreateShare (share : Share)
  | DeleteShare (share : Share)
  | CreateSnapshot (snapshot : Snapshot)
  | DeleteSnapshot (snapshot : Snapshot)
  | EnsureShare (share : Share)
  | UpdateAccess (share : Share) (access_rules add_rules delete_rules : list Access)
  | ExtendShare (share : Share) (new_size : Z)
  | ShrinkShare (share : Share) (new_size : Z).

Definition perform (self : FlashBladeShareDriver) (op : Operation) : M unit :=
  match op with
  | CreateShare share => create_share self share ;; ret tt
  | DeleteShare share => delete_share self share
  | CreateSnapshot snapshot => create_snapshot self snapshot
  | DeleteSnapshot snapshot => delete_snapshot self snapshot
  | EnsureShare share => ensure_share self share
  | UpdateAccess share access_rules add_rules delete_rules =>
      update_access self share access_rules add_rules delete_rules
  | ExtendShare share new_size => extend_share self share new_size
  | ShrinkShare share new_size => shrink_share self share new_size
  end.

(** The filter expression and the fully qualified name [delete_snapshot]
    builds ([filt] and [name] there). *)
Definition snapshot_filter (snapshot : Snapshot) : string :=
  "source='" +:+ _make_source_name snapshot +:+ "' and suffix='" +:+
  snapshot_id snapshot +:+ "'".

Definition snapshot_full_name (snapshot : Snapshot) : string :=
  _make_source_name snapshot +:+ "," +:+ snapshot_id snapshot.

(** ** The rule string as the specification words it

    One clause ["<access_to>(<level>,no_root_squash) "] per rule whose
    [access_type] is [ip], in input order; other rules contribute nothing. *)

Definition clause (access : Access) : string :=
  access_to access +:+ "(" +:+ access_level access +:+ ",no_root_squash) ".

Definition rule_string (access_rules : list Access) : string :=
  foldr String.append ""
        (clause <$> filter (λ access, access_type access = "ip") access_rules).

(** The levels of the access-rule data model. *)
Definition known_level (level : string) : Prop :=
  level = "rw" ∨ level = "ro".

#[global] Instance known_level_dec level : Decision (known_level level).
Proof. unfold known_level. apply _. Defined.

(** An [ip] rule whose level the translator does not know. *)
Definition offending (access : Access) : Prop :=
  access_type access = "ip" ∧ ¬ known_level (access_level access).

#[global] Instance offending_dec access : Decision (offending access).
Proof. unfold offending. apply _. Defined.

Definition rules_example : list Access :=
  [ {| access_type := "ip"; access_to := "10.0.0.1"; access_level := "rw" |};
    {| access_type := "ip"; access_to := "10.0.0.2"; access_level := "ro" |} ].

(** The same with a [user] rule of an unknown level in between. *)
Definition rules_mixed : list Access :=
  [ {| access_type := "ip"; access_to := "10.0.0.1"; access_level := "rw" |};
    {| access_type := "user"; access_to := "alice"; access_level := "admin" |};
    {| access_type := "ip"; access_to := "10.0.0.2"; access_level := "ro" |} ].

(** An [ip] rule with level [admin] after a valid one. *)
Definition rules_bad_level : list Access :=
  [ {| access_type := "ip"; access_to := "10.0.0.1"; access_level := "rw" |};
    {| access_type := "ip"; access_to := "10.0.0.9"; access_level := "admin" |};
    {| access_type := "ip"; access_to := "10.0.0.2"; access_level := "ro" |} ].

(** The space record of the specification's example. *)
Definition space_example : ArraySpace :=
  {| capacity := 1000;
     space := {| data_reduction := S754_finite false 6755399441055744 (-52);
                 total_physical := 400;
                 unique := 250 |} |}.

(** ** Trace properties *)

(** Every hard delete in [new] comes after a soft-delete update
    ([destroyed=True]) of the same name, earlier in [new]. *)
Definition soft_before_hard (new : list Call) : Prop :=
  ∀ pre c post, new = pre ++ c :: post →
    match c with
    | DeleteFileSystems n =>
        ∃ attributes, fs_destroyed attributes = Some true
                      ∧ UpdateFileSystems n attributes ∈ pre
    | DeleteFileSystemSnapshots n =>
        ∃ attributes, snap_destroyed attributes = Some true
                      ∧ UpdateFileSystemSnapshots n attributes ∈ pre
    | _ => True
    end.

Definition hard_delete (c : Call) : bool :=
  match c with
  | DeleteFileSystems _ | DeleteFileSystemSnapshots _ => true
  | _ => false
  end.

(** [l] is the locator listing that checks the existence of the target
    of the mutating call [c]: the file system of that very name, listed by
    name; for a snapshot named [<source>,<suffix>], the listing with the
    filter on that source and suffix; for a snapshot to create, the
    listing of its source file system. *)
Definition checks_target (l c : Call) : Prop :=
  match c with
  | CreateFileSystems fs =>
      ∃ name, fs_name fs = Some name ∧ l = ListFileSystems [name]
  | UpdateFileSystems name _ | DeleteFileSystems name =>
      l = ListFileSystems [name]
  | CreateFileSystemSnapshots sources _ =>
      ∃ source, source ∈ sources ∧ l = ListFileSystems [source]
  | UpdateFileSystemSnapshots name _ | DeleteFileSystemSnapshots name =>
      ∃ source suffix,
        name = source +:+ "," +:+ suffix
        ∧ l = ListFileSystemSnapshots
                ("source='" +:+ source +:+ "' and suffix='" +:+ suffix +:+ "'")
  | _ => False
  end.

(** Every mutating call in [new] comes after the locator listing of its
    own target, earlier in [new]. *)
Definition lookup_before_mutation (new : list Call) : Prop :=
  ∀ pre c post, new = pre ++ c :: post → mutating c = true →
    ∃ l, l ∈ pre ∧ checks_target l c.

(** An operation checks before mutating when the calls it adds satisfy
    [lookup_before_mutation]. *)
Definition checks_before_mutating (self : FlashBladeShareDriver)
    (op : Operation) (w : World) : Prop :=
  ∃ new, calls (snd (perform self op w)) = calls w ++ new
         ∧ lookup_before_mutation new.

(** An operation that never consults a locator. *)
Definition never_looks_up (self : FlashBladeShareDriver)
    (op : Operation) (w : World) : Prop :=
  ∃ new, calls (snd (perform self op w)) = calls w ++ new
         ∧ ∀ c, c ∈ new → locator_lookup c = false.

(** ** Arrays used to run the driver on concrete inputs *)

(** An array whose replies do not depend on the history: every call
    returns, the listings give the lists supplied. *)
Definition replying (versions : list string)
    (file_systems : list (option FileSystem))
    (snapshots : list (option FileSystemSnapshot))
    (spaces : list ArraySpace) : PurityFb :=
  {| on_list_versions := λ _, inr versions;
     on_list_arrays_space := λ _, inr spaces;
     on_list_file_systems := λ _ _, inr file_systems;
     on_create_file_systems := λ _ _, inr tt;
     on_update_file_systems := λ _ _ _, inr tt;
     on_delete_file_systems := λ _ _, inr tt;
     on_list_file_system_snapshots := λ _ _, inr snapshots;
     on_create_file_system_snapshots := λ _ _ _, inr tt;
     on_update_file_system_snapshots := λ _ _ _, inr tt;
     on_delete_file_system_snapshots := λ _ _, inr tt |}.

(** An array holding one file system [fs] until it has been eradicated:
    the listing gives it back while no [DeleteFileSystems] is in the
    history, and a [None] first item afterwards. *)
Definition holding (fs : FileSystem) : PurityFb :=
  {| on_list_versions := λ _, inr ["1.5"; "1.6"];
     on_list_arrays_space := λ _, inr [];
     on_list_file_systems := λ h _,
       if existsb hard_delete h then inr [None] else inr [Some fs];
     on_create_file_systems := λ _ _, inr tt;
     on_update_file_systems := λ _ _ _, inr tt;
     on_delete_file_systems := λ _ _, inr tt;
     on_list_file_system_snapshots := λ _ _, inr [];
     on_create_file_system_snapshots := λ _ _ _, inr tt;
     on_update_file_system_snapshots := λ _ _ _, inr tt;
     on_delete_file_system_snapshots := λ _ _, inr tt |}.

(** The same array, except that after the eradication the listing
    matches nothing: its [items] is empty. *)
Definition vanishing (fs : FileSystem) : PurityFb :=
  {| on_list_versions := λ _, inr ["1.5"; "1.6"];
     on_list_arrays_space := λ _, inr [];
     on_list_file_systems := λ h _,
       if existsb hard_delete h then inr [] else inr [Some fs];
     on_create_file_systems := λ _ _, inr tt;
     on_update_file_systems := λ _ _ _, inr tt;
     on_delete_file_systems := λ _ _, inr tt;
     on_list_file_system_snapshots := λ _ _, inr [];
     on_create_file_system_snapshots := λ _ _ _, inr tt;
     on_update_file_system_snapshots := λ _ _ _, inr tt;
     on_delete_file_system_snapshots := λ _ _, inr tt |}.

Definition start : World := {| calls := []; logged := [] |}.

Definition driver_on (sys : PurityFb) (eradicate : bool)
    : FlashBladeShareDriver :=
  {| _sys := sys; data_address := "10.0.0.5";
     flashblade_eradicate := eradicate;
     _backend_name := "FlashBladeShareDriver" |}.

Definition nfs_share : Share :=
  {| share_id := "abc"; share_size := 1; share_proto := "NFS" |}.

Definition cifs_share : Share :=
  {| share_id := "abc"; share_size := 1; share_proto := "CIFS" |}.

Definition snap1 : Snapshot :=
  {| snapshot_id := "snap1"; snapshot_share_instance_id := "abc" |}.

(** The file system the array holds for [nfs_share]. *)
Definition held_fs : FileSystem :=
  {| fs_name := Some "share-abc-manila"; fs_provisioned := Some units.Gi;
     fs_hard_limit_enabled := Some true;
     fs_fast_remove_directory_enabled := Some true;
     fs_snapshot_directory_enabled := Some true;
     fs_nfs := Some {| nfs_enabled := None; nfs_v3_enabled := Some true;
                       nfs_v4_1_enabled := Some true; nfs_rules := Some "" |};
     fs_smb := None; fs_destroyed := None |}.

Definition held_snapshot : FileSystemSnapshot :=
  {| snap_name := Some "share-abc-manila.snap1"; snap_suffix := Some "snap1";
     snap_destroyed := None |}.

(** ** Driver set-up

    [__init__] and [do_setup] run before any lifecycle operation.  They use
    exception classes and SDK entry points of their own, so they get a
    state of their own: the attributes [do_setup] assigns on [self], the
    SDK entry points it has gone through, and the log. *)

(** What [do_setup] raises: the two manila classes it names, or whatever
    else the SDK lets escape. *)
Inductive setup_exn : Type :=
  | ManilaException (message : string)
  | BadConfigurationException (reason : string)
  | SdkError (e : exn).

Inductive SetupCall : Type :=
  | Connect (management_address : string)       (* purity_fb.PurityFb(...) *)
  | DisableVerifySsl
  | Login (api : string)
  | ApiVersions                                 (* api_version.list_versions() *)
  | SetUserAgent (user_agent : string).         (* _api_client.user_agent = ... *)

(** The session object [purity_fb.PurityFb(address)] gives back: logging
    in and listing the API versions may raise; building the object,
    [disable_verify_ssl] and the attribute assignment do not. *)
Record Session : Type := mkSession {
  on_login : string → exn + unit;
  on_api_versions : exn + list string
}.

Record SetupState : Type := mkSetupState {
  st_api : option string;                  (* self.api *)
  st_management_address : option string;   (* self.management_address *)
  st_data_address : option string;         (* self.data_address *)
  st_backend_name : option string;         (* self._backend_name *)
  st_calls : list SetupCall;
  st_logged : list (Level * string)
}.

Definition before_setup : SetupState :=
  {| st_api := None; st_management_address := None; st_data_address := None;
     st_backend_name := None; st_calls := []; st_logged := [] |}.

Definition Setup (A : Type) : Type := SetupState → (setup_exn + A) * SetupState.

Definition sret {A} (a : A) : Setup A := λ st, (inr a, st).

Definition sraise {A} (e : setup_exn) : Setup A := λ st, (inl e, st).

Definition sbind {A B} (m : Setup A) (k : A → Setup B) : Setup B :=
  λ st, match m st with
        | (inr a, st') => k a st'
        | (inl e, st') => (inl e, st')
        end.

Definition slog (lvl : Level) (msg : string) : Setup unit :=
  λ st, (inr tt,
         {| st_api := st_api st;
            st_management_address := st_management_address st;
            st_data_address := st_data_address st;
            st_backend_name := st_backend_name st;
            st_calls := st_calls st;
            st_logged := st_logged st ++ [(lvl, msg)] |}).

(** One SDK entry point: recorded, then its reply; an exception of the
    SDK is an [SdkError] until a handler has looked at it. *)
Definition sdk {R} (c : SetupCall) (reply : exn + R) : Setup R :=
  λ st,
    let st' := {| st_api := st_api st;
                  st_management_address := st_management_address st;
                  st_data_address := st_data_address st;
                  st_backend_name := st_backend_name st;
                  st_calls := st_calls st ++ [c];
                  st_logged := st_logged st |} in
    match reply with
    | inr r => (inr r, st')
    | inl e => (inl (SdkError e), st')
    end.

(** [try: body  except purity_fb.rest.ApiException as ex: handler]. *)
Definition try_except_api {A} (body : Setup A) (handler : string → Setup A)
    : Setup A :=
  λ st, match body st with
        | (inl (SdkError (ApiException ex)), st') => handler ex st'
        | other => other
        end.

Definition assign_api (v : string) : Setup unit :=
  λ st, (inr tt,
         {| st_api := Some v;
            st_management_address := st_management_address st;
            st_data_address := st_data_address st;
            st_backend_name := st_backend_name st;
            st_calls := st_calls st; st_logged := st_logged st |}).

Definition assign_management_address (v : string) : Setup unit :=
  λ st, (inr tt,
         {| st_api := st_api st;
            st_management_address := Some v;
            st_data_address := st_data_address st;
            st_backend_name := st_backend_name st;
            st_calls := st_calls st; st_logged := st_logged st |}).

Definition assign_data_address (v : string) : Setup unit :=
  λ st, (inr tt,
         {| st_api := st_api st;
            st_management_address := st_management_address st;
            st_data_address := Some v;
            st_backend_name := st_backend_name st;
            st_calls := st_calls st; st_logged := st_logged st |}).

Definition assign_backend_name (v : string) : Setup unit :=
  λ st, (inr tt,
         {| st_api := st_api st;
            st_management_address := st_management_address st;
            st_data_address := st_data_address st;
            st_backend_name := Some v;
            st_calls := st_calls st; st_logged := st_logged st |}).

Declare Scope setup_scope.
Delimit Scope setup_scope with setup.
Notation "x <- m ;; k" := (sbind m (λ x, k))
  (at level 100, m at next level, right associativity) : setup_scope.
Notation "m ;; k" := (sbind m (λ _, k))
  (at level 100, right associativity) : setup_scope.

Definition USER_AGENT_BASE : string := "OpenStack Manila".

Definition class_name : string := "FlashBladeShareDriver".   (* __class__.__name__ *)

(** [self._user_agent], built by [__init__] from [platform.platform()]. *)
Definition _user_agent (platform : string) : string :=
  USER_AGENT_BASE +:+ " " +:+ class_name +:+ "/" +:+ VERSION +:+
  " (" +:+ platform +:+ ")".

(** [self.configuration.safe_get]: the options that hold a string; an
    option never set reads as [None]. *)
Definition safe_get (configuration : gmap string string)
    (config_parameter : string) : option string :=
  configuration !! config_parameter.

(** [not config_value]: [None] and the empty string are both falsy. *)
Definition _safe_get_from_config_or_fail (configuration : gmap string string)
    (config_parameter : string) : Setup string :=
  (let config_value := safe_get configuration config_parameter in
   match config_value with
   | Some (String a s) => sret (String a s)
   | Some "" | None =>
       let reason := config_parameter +:+
                     " configuration parameter must be specified" in
       slog ERROR reason ;;
       sraise (BadConfigurationException reason)
   end)%setup.

Definition newline : string := String (Ascii.ascii_of_nat 10) "".

Definition do_setup (HAS_PURITY_FB : bool) (platform : string)
    (configuration : gmap string string)
    (PurityFb_ : string → Session) : Setup unit :=
  (if negb HAS_PURITY_FB then
     sraise (ManilaException
       "Missing 'purity_fb' python module, ensure the library is installed and available.")
   else
     api <- _safe_get_from_config_or_fail configuration "flashblade_api" ;;
     assign_api api ;;
     management_address <-
       _safe_get_from_config_or_fail configuration "flashblade_mgmt_vip" ;;
     assign_management_address management_address ;;
     data_address <-
       _safe_get_from_config_or_fail configuration "flashblade_data_vip" ;;
     assign_data_address data_address ;;
     let _sys := PurityFb_ management_address in
     sdk (Connect management_address) (inr tt) ;;
     sdk DisableVerifySsl (inr tt) ;;
     try_except_api
       (sdk (Login api) (on_login _sys api) ;;
        versions <- sdk ApiVersions (on_api_versions _sys) ;;
        if bool_decide ("1.5" ∈ versions)
        then sdk (SetUserAgent (_user_agent platform)) (inr tt)
        else sret tt)
       (λ ex,
          let msg := "Exception when logging into the array: " +:+ ex
                     +:+ newline in
          slog EXCEPTION msg ;;
          sraise (ManilaException msg)) ;;
     let backend_name := safe_get configuration "share_backend_name" in
     assign_backend_name
       (match backend_name with
        | Some (String a s) => String a s
        | Some "" | None => class_name       (* backend_name or ... *)
        end) ;;
     slog DEBUG "setup complete")%setup.

(** The driver object a completed set-up leaves, on the array session
    [sys] and with the eradication option [eradicate]. *)
Definition driver_after_setup (sys : PurityFb) (eradicate : bool)
    (st : SetupState) : option FlashBladeShareDriver :=
  match st_data_address st, st_backend_name st with
  | Some data_address, Some backend_name =>
      Some {| _sys := sys; data_address := data_address;
              flashblade_eradicate := eradicate;
              _backend_name := backend_name |}
  | _, _ => None
  end.

(** A session that accepts every login and reports [versions]. *)
Definition accepting (versions : list string) : Session :=
  {| on_login := λ _, inr tt; on_api_versions := inr versions |}.

(** A session that refuses the login. *)
Definition refusing (ex : string) : Session :=
  {| on_login := λ _, inl (ApiException ex); on_api_versions := inr [] |}.

Definition config_example : gmap string string :=
  {[ "flashblade_api" := "T-0123";
     "flashblade_mgmt_vip" := "10.0.0.2";
     "flashblade_data_vip" := "10.0.0.5" ]}.

(** ** Export of a file system

    [_create_filesystem_export] goes through two methods of the object it is
    given: [add_export(permissions=[])], and [get_export_path()] of what
    that returns.  Either may raise. *)
Record FlashBladeExport : Type := mkFlashBladeExport {
  on_get_export_path : exn + string
}.

Record FlashBladeFilesystem : Type := mkFlashBladeFilesystem {
  on_add_export : exn + FlashBladeExport
}.

Record ExportLocation : Type := mkExportLocation {
  path : string;
  is_admin_only : bool;
  metadata : gmap string string
}.

(** A method of an SDK object that is not one of the array calls. *)
Definition method {R} (reply : exn + R) : M R :=
  λ w, match reply with
       | inr r => (Returns r, w)
       | inl e => (Raises e, w)
       end.

Definition _create_filesystem_export (self : FlashBladeShareDriver)
    (flashblade_filesystem : FlashBladeFilesystem) : M ExportLocation :=
  purity_fb_to_manila_exceptions
    (flashblade_export <- method (on_add_export flashblade_filesystem) ;;
     export_path <- method (on_get_export_path flashblade_export) ;;
     path <- _get_full_nfs_export_path self export_path ;;
     ret {| path := path; is_admin_only := false; metadata := ∅ |}).

(** ** Further vocabulary for traces *)

Definition creates_file_system (c : Call) : bool :=
  match c with
  | CreateFileSystems _ => true
  | _ => false
  end.

(** ** Vocabulary for the set-up *)

(** The options [do_setup] requires, in the order it reads them. *)
Definition required_options : list string :=
  ["flashblade_api"; "flashblade_mgmt_vip"; "flashblade_data_vip"].

(** An option that reads as falsy: never set, or set to the empty
    string. *)
Definition unset (configuration : gmap string string)
    (config_parameter : string) : Prop :=
  configuration !! config_parameter = None
  ∨ configuration !! config_parameter = Some "".

#[global] Instance unset_dec configuration config_parameter :
  Decision (unset configuration config_parameter).
Proof. unfold unset. apply _. Defined.

(** Every address leads to a session that accepts the login and reports
    the API versions up to 1.6. *)
Definition accepting_16 (management_address : string) : Session :=
  accepting ["1.0"; "1.5"; "1.6"].

(** * Properties *)

(** ** Monad and locator equations *)

Ltac unfold_monad :=
  unfold purity_fb_to_manila_exceptions, try_except, bind, ret, raise, LOG,
    list_versions, list_arrays_space, list_file_systems, create_file_systems,
    update_file_systems, delete_file_systems, list_file_system_snapshots,
    create_file_system_snapshots, update_file_system_snapshots,
    delete_file_system_snapshots, invoke in *.

(** A found file system: the locator returns it, one listing issued. *)
Lemma locate_filesystem_found self name w fs rest :
  on_list_file_systems (_sys self) (calls w) [name] = inr (Some fs :: rest) →
  _get_flashblade_filesystem_by_name self name w
  = (Returns fs, {| calls := calls w ++ [ListFileSystems [name]];
                    logged := logged w |}).
Proof.
  intros Hreply. unfold _get_flashblade_filesystem_by_name. unfold_monad.
  cbn. by rewrite Hreply.
Qed.

(** A [None] first item: the locator logs and raises
    [ShareResourceNotFound]; neither the inner [except InvalidShare] nor
    the decorator intercepts it. *)
Lemma locate_filesystem_absent self name w rest :
  on_list_file_systems (_sys self) (calls w) [name] = inr (None :: rest) →
  _get_flashblade_filesystem_by_name self name w
  = (Raises (ShareResourceNotFound name),
     {| calls := calls w ++ [ListFileSystems [name]];
        logged := logged w ++
          [(ERROR, "Filesystem not found on FlashBlade by name: " +:+ name)] |}).
Proof.
  intros Hreply. unfold _get_flashblade_filesystem_by_name. unfold_monad.
  cbn. by rewrite Hreply.
Qed.

(** An empty [items]: [res.items[0]] raises [IndexError], which no clause
    of the locator selects. *)
Lemma locate_filesystem_empty self name w :
  on_list_file_systems (_sys self) (calls w) [name] = inr [] →
  _get_flashblade_filesystem_by_name self name w
  = (Raises IndexError, {| calls := calls w ++ [ListFileSystems [name]];
                           logged := logged w |}).
Proof.
  intros Hreply. unfold _get_flashblade_filesystem_by_name. unfold_monad.
  cbn. by rewrite Hreply.
Qed.

(** The locator reports [ShareResourceNotFound] exactly when the listing
    returns a [None] first item or raises [InvalidShare] or
    [ShareResourceNotFound] itself. *)
Lemma locate_filesystem_not_found_iff self name w n :
  fst (_get_flashblade_filesystem_by_name self name w)
    = Raises (ShareResourceNotFound n)
  ↔ (n = name ∧
       ((∃ rest, on_list_file_systems (_sys self) (calls w) [name]
                 = inr (None :: rest))
        ∨ ∃ r, on_list_file_systems (_sys self) (calls w) [name]
               = inl (InvalidShare r)))
    ∨ on_list_file_systems (_sys self) (calls w) [name]
      = inl (ShareResourceNotFound n).
Proof.
  unfold _get_flashblade_filesystem_by_name. unfold_monad. cbn.
  destruct (on_list_file_systems _ _ _) as [e|[|[fs|] rest]]; cbn.
  all: try destruct e; cbn.
  all: split;
    [ intros [= <-]; eauto 6
    | intros [[-> [[? [= ]]|[? [= ]]]]|[= ]]; subst; reflexivity ].
Qed.

(** ** Deleting a share *)

(** With a [None] first item in the listing, [delete_share] catches the
    locator's [ShareResourceNotFound], logs a warning and returns: the
    listing is the only call. *)
Lemma delete_share_absent self share w rest :
  on_list_file_systems (_sys self) (calls w) [_make_share_name share]
    = inr (None :: rest) →
  delete_share self share w
  = (Returns tt,
     {| calls := calls w ++ [ListFileSystems [_make_share_name share]];
        logged := logged w ++
          [(ERROR, "Filesystem not found on FlashBlade by name: "
                     +:+ _make_share_name share);
           (WARNING, "share " +:+ _make_share_name share
                       +:+ " not found on FlashBlade, skip delete")] |}).
Proof.
  intros Hreply. unfold delete_share.
  unfold purity_fb_to_manila_exceptions at 1.
  unfold try_except at 1, bind at 1, try_except at 1, bind at 1.
  rewrite (locate_filesystem_absent _ _ _ _ Hreply). cbn.
  by rewrite <- app_assoc.
Qed.

(** The one report of absence [delete_share] is prepared for: when the
    listing has a [None] first item, it logs and returns, and the listing
    is the only SDK call it issues, for either value of the eradication
    flag and in every world. *)
Theorem delete_share_idempotent self share w rest :
  on_list_file_systems (_sys self) (calls w) [_make_share_name share]
    = inr (None :: rest) →
  ∃ w',
    delete_share self share w = (Returns tt, w')
    ∧ calls w' = calls w ++ [ListFileSystems [_make_share_name share]]
    ∧ (∀ c, c ∈ drop (length (calls w)) (calls w') → mutating c = false)
    ∧ (WARNING, "share " +:+ _make_share_name share
                  +:+ " not found on FlashBlade, skip delete") ∈ logged w'
    ∧ ∀ rest', on_list_file_systems (_sys self) (calls w')
                 [_make_share_name share] = inr (None :: rest') →
        fst (delete_share self share w') = Returns tt
        ∧ calls (snd (delete_share self share w'))
          = calls w' ++ [ListFileSystems [_make_share_name share]].
Proof.
  intros Hreply. eexists. split; [by eapply delete_share_absent|]. cbn.
  split; [done|]. split.
  - rewrite drop_app_length. intros c ->%list_elem_of_singleton. done.
  - split; [set_solver|].
    intros rest' Hreply'.
    by rewrite (delete_share_absent self share (mkWorld _ _) rest' Hreply').
Qed.

(** On an array that holds the share and eradicates on request, a first
    [delete_share] with the flag set leaves a world in which the listing
    shows the share absent; the theorem applies to that world. *)
Lemma delete_share_idempotent_witness :
  let self := driver_on (holding held_fs) true in
  let w1 := snd (delete_share self nfs_share start) in
  calls w1 = [ListFileSystems ["share-abc-manila"];
              UpdateFileSystems "share-abc-manila" destroy_file_system;
              DeleteFileSystems "share-abc-manila"]
  ∧ ∃ w', delete_share self nfs_share w1 = (Returns tt, w')
          ∧ calls w' = calls w1 ++ [ListFileSystems ["share-abc-manila"]].
Proof.
  intros self w1. split; [reflexivity|].
  destruct (delete_share_idempotent self nfs_share w1 [])
    as (w' & Hrun & Hcalls & _); [reflexivity|].
  exists w'. split; [exact Hrun | exact Hcalls].
Defined.

(** An empty listing is not a report of absence for the locator:
    [res.items[0]] raises [IndexError] and [delete_share] lets it through. *)
Lemma delete_share_empty_listing self share w :
  on_list_file_systems (_sys self) (calls w) [_make_share_name share]
    = inr [] →
  delete_share self share w
  = (Raises IndexError,
     {| calls := calls w ++ [ListFileSystems [_make_share_name share]];
        logged := logged w |}).
Proof.
  intros Hreply. unfold delete_share.
  unfold purity_fb_to_manila_exceptions at 1.
  unfold try_except at 1, bind at 1, try_except at 1, bind at 1.
  by rewrite (locate_filesystem_empty _ _ _ Hreply).
Qed.

(** A fault of the listing is translated by the locator's decorator and
    ends [delete_share] with a [ShareBackendException]. *)
Lemma delete_share_listing_fault self share w str :
  on_list_file_systems (_sys self) (calls w) [_make_share_name share]
    = inl (ApiException str) →
  fst (delete_share self share w)
  = Raises (ShareBackendException ("Caught exception from purity_fb: " +:+ str)).
Proof.
  intros Hreply. unfold delete_share, _get_flashblade_filesystem_by_name.
  unfold_monad. cbn. by rewrite Hreply.
Qed.

(** C1 (the code departs from the claim).  On an array whose listing
    matches nothing for the share's name (an empty [items]),
    [delete_share] does not skip: it raises [IndexError] after the
    listing, with the eradication flag set or not.  On an array that
    holds the share and lists nothing once it is eradicated, a first
    [delete_share] with the flag set returns and the second one raises. *)
Theorem delete_share_absent_raises :
  delete_share (driver_on (replying [] [] [] []) false) nfs_share start
  = (Raises IndexError,
     {| calls := [ListFileSystems ["share-abc-manila"]]; logged := [] |})
  ∧ delete_share (driver_on (replying [] [] [] []) true) nfs_share start
    = (Raises IndexError,
       {| calls := [ListFileSystems ["share-abc-manila"]]; logged := [] |})
  ∧ delete_share (driver_on (vanishing held_fs) true) nfs_share start
    = (Returns tt,
       {| calls := [ListFileSystems ["share-abc-manila"];
                    UpdateFileSystems "share-abc-manila" destroy_file_system;
                    DeleteFileSystems "share-abc-manila"];
          logged := [] |})
  ∧ fst (delete_share (driver_on (vanishing held_fs) true) nfs_share
           (snd (delete_share (driver_on (vanishing held_fs) true)
                   nfs_share start)))
    = Raises IndexError.
Proof. repeat split; reflexivity. Qed.

(** ** Deleting a snapshot *)

(** Whatever the array replies to the listing, [delete_snapshot] has no
    run that returns without having issued the soft-delete update: an
    empty [items] raises [IndexError]; a non-empty one, even with a [None]
    first item, goes on to the update; an exception of the listing leaves
    the method as an exception (the handler for [ShareResourceNotFound]
    itself raises [UnboundLocalError]). *)
Lemma delete_snapshot_never_skips self snapshot w :
  fst (delete_snapshot self snapshot w) = Returns tt →
  UpdateFileSystemSnapshots (snapshot_full_name snapshot)
    {| snap_name := None; snap_suffix := None; snap_destroyed := Some true |}
  ∈ drop (length (calls w)) (calls (snd (delete_snapshot self snapshot w))).
Proof.
  unfold delete_snapshot, _get_flashblade_snapshot_by_name,
    snapshot_full_name.
  unfold_monad. cbn.
  destruct (on_list_file_system_snapshots _ _ _) as [e|[|item rest]]; cbn.
  - destruct e; cbn; discriminate.
  - discriminate.
  - destruct (on_update_file_system_snapshots _ _ _ _) as [e|[]]; cbn.
    { destruct e; cbn; discriminate. }
    destruct (flashblade_eradicate self); cbn.
    + destruct (on_delete_file_system_snapshots _ _ _) as [e|[]]; cbn.
      { destruct e; cbn; discriminate. }
      intros _. rewrite <- !app_assoc, drop_app_length. set_solver.
    + intros _. rewrite <- !app_assoc, drop_app_length. set_solver.
Qed.

(** The handler of [delete_snapshot] cannot complete: if the listing did
    raise [ShareResourceNotFound], the method ends with
    [UnboundLocalError]. *)
Lemma delete_snapshot_handler_unbound self snapshot w n :
  on_list_file_system_snapshots (_sys self) (calls w) (snapshot_filter snapshot)
    = inl (ShareResourceNotFound n) →
  fst (delete_snapshot self snapshot w)
  = Raises (UnboundLocalError "flashblade_snapshot").
Proof.
  unfold delete_snapshot, _get_flashblade_snapshot_by_name, snapshot_filter.
  unfold_monad. cbn. by intros ->.
Qed.

(** C2 (the code departs from the claim).  On an array whose snapshot
    listing matches nothing, [delete_snapshot] does not return: it raises
    [IndexError] after the listing.  When the listing's first item is
    [None], it does not skip either: the soft-delete update is issued. *)
Theorem delete_snapshot_absent_not_skipped :
  delete_snapshot (driver_on (replying [] [] [] []) false) snap1 start
  = (Raises IndexError,
     {| calls := [ListFileSystemSnapshots
                    "source='share-abc-manila' and suffix='snap1'"];
        logged := [] |})
  ∧ delete_snapshot (driver_on (replying [] [] [None] []) false) snap1 start
    = (Returns tt,
       {| calls := [ListFileSystemSnapshots
                      "source='share-abc-manila' and suffix='snap1'";
                    UpdateFileSystemSnapshots "share-abc-manila,snap1"
                      {| snap_name := None; snap_suffix := None;
                         snap_destroyed := Some true |}];
          logged := [] |}).
Proof. split; reflexivity. Qed.

(** ** Access translation *)

Lemma string_app_assoc (s1 s2 s3 : string) :
  (s1 +:+ s2) +:+ s3 = s1 +:+ (s2 +:+ s3).
Proof.
  induction s1 as [|a s1 IH]; [done|].
  change (String a ((s1 +:+ s2) +:+ s3) = String a (s1 +:+ (s2 +:+ s3))).
  by rewrite IH.
Qed.

Lemma string_app_nil_r (s : string) : s +:+ "" = s.
Proof.
  induction s as [|a s IH]; [done|].
  change (String a (s +:+ "") = String a s). by rewrite IH.
Qed.

(** The dict has the two keys [rw] and [ro], each mapped to itself. *)
Lemma access_level_table level :
  _MANILA_TO_FLASHBLADE_ACCESS_LEVEL !! level
  = if decide (level = "rw") then Some "rw"
    else if decide (level = "ro") then Some "ro" else None.
Proof.
  unfold _MANILA_TO_FLASHBLADE_ACCESS_LEVEL,
    constants.ACCESS_LEVEL_RW, constants.ACCESS_LEVEL_RO.
  rewrite lookup_insert. repeat case_decide; simplify_eq; try done.
  by rewrite lookup_singleton_ne.
Qed.

Lemma access_level_known access w :
  known_level (access_level access) →
  _get_flashblade_access_level access w = (Returns (access_level access), w).
Proof.
  unfold _get_flashblade_access_level. rewrite access_level_table.
  by intros [-> | ->].
Qed.

Lemma access_level_unknown access w :
  ¬ known_level (access_level access) →
  _get_flashblade_access_level access w
  = (Raises (InvalidShareAccessLevel (access_level access)), w).
Proof.
  unfold _get_flashblade_access_level, known_level.
  rewrite access_level_table. intros Hunknown.
  repeat case_decide; naive_solver.
Qed.

Lemma is_ip_true access :
  String.eqb (access_type access) "ip" = true ↔ access_type access = "ip".
Proof. apply String.eqb_eq. Qed.

(** The loop started with any accumulator appends the specified string. *)
Lemma render_nfs_rules_acc access_rules acc w :
  (∀ access, access ∈ access_rules → access_type access = "ip" →
             known_level (access_level access)) →
  render_nfs_rules access_rules acc w
  = (Returns (acc +:+ rule_string access_rules), w).
Proof.
  revert acc. induction access_rules as [|access rest IH]; intros acc Hlevels.
  - cbn. unfold ret. by rewrite string_app_nil_r.
  - cbn [render_nfs_rules]. unfold rule_string.
    destruct (String.eqb (access_type access) "ip") eqn:Hip.
    + apply is_ip_true in Hip.
      unfold bind. rewrite access_level_known by (apply Hlevels; [left|done]).
      rewrite IH by (intros a Ha; apply Hlevels; by right).
      rewrite filter_cons_True by done. cbn [fmap list_fmap foldr].
      unfold clause at 1, rule_string.
      by rewrite !string_app_assoc.
    + assert (access_type access ≠ "ip") as Hne.
      { intros Heq%is_ip_true. congruence. }
      rewrite IH by (intros a Ha; apply Hlevels; by right).
      by rewrite filter_cons_False.
Qed.

Lemma rule_string_nil : rule_string [] = "".
Proof. reflexivity. Qed.

Lemma rule_string_cons_ip access rest :
  access_type access = "ip" →
  rule_string (access :: rest) = clause access +:+ rule_string rest.
Proof. intros Hip. unfold rule_string. by rewrite filter_cons_True. Qed.

Lemma rule_string_cons_other access rest :
  access_type access ≠ "ip" →
  rule_string (access :: rest) = rule_string rest.
Proof. intros Hip. unfold rule_string. by rewrite filter_cons_False. Qed.

(** Order is kept: the string of a concatenation is the concatenation of
    the strings. *)
Lemma rule_string_app rules1 rules2 :
  rule_string (rules1 ++ rules2) = rule_string rules1 +:+ rule_string rules2.
Proof.
  induction rules1 as [|access rest IH]; [done|].
  destruct (decide (access_type access = "ip")) as [Hip|Hip].
  - cbn [app]. rewrite !rule_string_cons_ip by done.
    by rewrite IH, string_app_assoc.
  - cbn [app]. by rewrite !rule_string_cons_other.
Qed.

(** C3. For a list of access rules whose [ip] rules carry a level of the
    data model ([rw] or [ro]), the loop of [_update_nfs_access] returns the
    specified rule string: the clauses
    ["<access_to>(<level>,no_root_squash) "] of the [ip] rules, in input
    order, and nothing for the other rules (whatever their level).  A list
    without [ip] rules, the empty list among them, gives the empty
    string. *)
Theorem nfs_rule_string_reduction access_rules w :
  Forall (λ access, access_type access = "ip" →
                    known_level (access_level access)) access_rules →
  render_nfs_rules access_rules "" w = (Returns (rule_string access_rules), w)
  ∧ rule_string access_rules
    = foldr String.append ""
        ((λ access, access_to access +:+ "(" +:+ access_level access
                      +:+ ",no_root_squash) ")
           <$> filter (λ access, access_type access = "ip") access_rules)
  ∧ (filter (λ access, access_type access = "ip") access_rules = [] →
     render_nfs_rules access_rules "" w = (Returns "", w)).
Proof.
  intros Hlevels. rewrite Forall_forall in Hlevels.
  pose proof (render_nfs_rules_acc access_rules "" w Hlevels) as Hrun.
  cbn in Hrun. split; [exact Hrun|]. split; [reflexivity|].
  intros Hnone. rewrite Hrun. unfold rule_string. by rewrite Hnone.
Qed.

(** The example of the specification, the same rules with a [user] rule of
    an unknown level in between, and the empty list. *)
Lemma nfs_rule_string_reduction_witness :
  render_nfs_rules rules_example "" start
  = (Returns "10.0.0.1(rw,no_root_squash) 10.0.0.2(ro,no_root_squash) ", start)
  ∧ render_nfs_rules rules_mixed "" start
    = (Returns "10.0.0.1(rw,no_root_squash) 10.0.0.2(ro,no_root_squash) ", start)
  ∧ render_nfs_rules [] "" start = (Returns "", start).
Proof.
  split; [|split].
  - refine (proj1 (nfs_rule_string_reduction rules_example start _)).
    apply (bool_decide_unpack _). vm_compute. exact I.
  - refine (proj1 (nfs_rule_string_reduction rules_mixed start _)).
    apply (bool_decide_unpack _). vm_compute. exact I.
  - refine (proj2 (proj2 (nfs_rule_string_reduction [] start _)) eq_refl).
    apply (bool_decide_unpack _). vm_compute. exact I.
Defined.

(** The loop stops at the first offending rule, whatever it has
    accumulated, and leaves the world as it was. *)
Lemma render_nfs_rules_offending access_rules acc w :
  Exists offending access_rules →
  ∃ pre access post,
    access_rules = pre ++ access :: post
    ∧ Forall (λ a, ¬ offending a) pre
    ∧ offending access
    ∧ render_nfs_rules access_rules acc w
      = (Raises (InvalidShareAccessLevel (access_level access)), w).
Proof.
  revert acc. induction access_rules as [|a rest IH]; intros acc Hex.
  { by apply Exists_nil in Hex. }
  destruct (decide (offending a)) as [Hoff|Hok].
  - exists [], a, rest. split; [done|]. split; [constructor|]. split; [done|].
    destruct Hoff as [Hip Hlevel]. cbn [render_nfs_rules].
    apply is_ip_true in Hip. rewrite Hip. unfold bind.
    by rewrite access_level_unknown.
  - apply Exists_cons in Hex as [Hoff|Hex]; [done|].
    assert (∀ acc', render_nfs_rules (a :: rest) acc w
                    = render_nfs_rules rest acc' w
            → ∃ pre access post,
                a :: rest = pre ++ access :: post
                ∧ Forall (λ a, ¬ offending a) pre ∧ offending access
                ∧ render_nfs_rules (a :: rest) acc w
                  = (Raises (InvalidShareAccessLevel (access_level access)), w))
      as Hstep.
    { intros acc' Heq. destruct (IH acc' Hex) as (pre & b & post & -> & Hpre & Hb & Hrun).
      exists (a :: pre), b, post. split; [done|]. split; [by constructor|].
      split; [done|]. by rewrite Heq. }
    destruct (String.eqb (access_type a) "ip") eqn:Hip.
    + assert (known_level (access_level a)) as Hknown.
      { destruct (decide (known_level (access_level a))); [done|].
        exfalso. apply Hok. split; [by apply is_ip_true|done]. }
      eapply Hstep. cbn [render_nfs_rules]. rewrite Hip. unfold bind.
      by rewrite access_level_known.
    + eapply Hstep. cbn [render_nfs_rules]. by rewrite Hip.
Qed.

(** ** Updating access *)

(** With the share found and every [ip] level known, the whole rule string
    is applied in one update. *)
Lemma update_nfs_access_applies self share access_rules w fs rest :
  on_list_file_systems (_sys self) (calls w) [_make_share_name share]
    = inr (Some fs :: rest) →
  Forall (λ access, access_type access = "ip" →
                    known_level (access_level access)) access_rules →
  ∃ w', snd (_update_nfs_access self share access_rules w) = w'
    ∧ calls w' = calls w ++
        [ListFileSystems [_make_share_name share];
         UpdateFileSystems (_make_share_name share)
           {| fs_name := None; fs_provisioned := None;
              fs_hard_limit_enabled := None;
              fs_fast_remove_directory_enabled := None;
              fs_snapshot_directory_enabled := None;
              fs_nfs := Some (mkNfsRule None None None
                                (Some (rule_string access_rules)));
              fs_smb := None; fs_destroyed := None |}].
Proof.
  intros Hreply Hlevels. rewrite Forall_forall in Hlevels.
  eexists. split; [reflexivity|].
  unfold _update_nfs_access.
  unfold purity_fb_to_manila_exceptions at 1.
  unfold try_except at 1, bind at 1, try_except at 1, bind at 1.
  rewrite (locate_filesystem_found _ _ _ _ _ Hreply). cbn.
  unfold bind at 1.
  rewrite (render_nfs_rules_acc _ _ _ Hlevels). cbn.
  unfold_monad. cbn.
  destruct (on_update_file_systems _ _ _ _) as [e|[]]; cbn.
  - destruct e; cbn; by rewrite <- app_assoc.
  - by rewrite <- app_assoc.
Qed.

(** C4. For an NFS share the array lists, and rules among which some [ip]
    rule has a level other than [rw] and [ro], [update_access] raises
    [InvalidShareAccessLevel] carrying the level of the first such rule.
    The listing of the locator is the only SDK call issued (no update, so
    no partial rule string reaches the file system) and nothing is
    logged. *)
Theorem update_access_unknown_level
    self share access_rules add_rules delete_rules w fs rest :
  share_proto share = "NFS" →
  on_list_file_systems (_sys self) (calls w) [_make_share_name share]
    = inr (Some fs :: rest) →
  Exists offending access_rules →
  ∃ pre access post,
    access_rules = pre ++ access :: post
    ∧ Forall (λ a, ¬ offending a) pre
    ∧ access_type access = "ip"
    ∧ access_level access ≠ "rw" ∧ access_level access ≠ "ro"
    ∧ update_access self share access_rules add_rules delete_rules w
      = (Raises (InvalidShareAccessLevel (access_level access)),
         {| calls := calls w ++ [ListFileSystems [_make_share_name share]];
            logged := logged w |}).
Proof.
  intros Hproto Hreply Hex.
  destruct (render_nfs_rules_offending access_rules ""
              {| calls := calls w ++ [ListFileSystems [_make_share_name share]];
                 logged := logged w |} Hex)
    as (pre & access & post & Hsplit & Hpre & [Hip Hlevel] & Hrun).
  exists pre, access, post. split; [done|]. split; [done|]. split; [done|].
  unfold known_level in Hlevel.
  split; [naive_solver|]. split; [naive_solver|].
  unfold update_access. rewrite Hproto. cbn [String.eqb Ascii.eqb Bool.eqb].
  unfold _update_nfs_access.
  unfold purity_fb_to_manila_exceptions at 1.
  unfold try_except at 1, bind at 1, try_except at 1, bind at 1.
  rewrite (locate_filesystem_found _ _ _ _ _ Hreply). cbn.
  unfold bind at 1. by rewrite Hrun.
Qed.

Lemma update_access_unknown_level_witness :
  update_access (driver_on (replying [] [Some held_fs] [] []) false)
    nfs_share rules_bad_level [] [] start
  = (Raises (InvalidShareAccessLevel "admin"),
     {| calls := [ListFileSystems ["share-abc-manila"]]; logged := [] |}).
Proof.
  destruct (update_access_unknown_level
              (driver_on (replying [] [Some held_fs] [] []) false)
              nfs_share rules_bad_level [] [] start held_fs [])
    as (pre & access & post & Hsplit & Hpre & Hip & Hrw & Hro & Hrun).
  - reflexivity.
  - reflexivity.
  - apply (bool_decide_unpack _). vm_compute. exact I.
  - assert (access_level access = "admin") as Hlevel.
    { pose proof Hrun as Hrun'. vm_compute in Hrun'.
      injection Hrun' as Heq. symmetry. exact Heq. }
    rewrite Hrun, Hlevel. reflexivity.
Defined.

(** ** Creating a share *)

(** C5. For a share whose protocol is [NFS], of size [s] GiB, on an array
    that answers the version listing and accepts the create,
    [create_share] issues the version listing and then exactly one
    [create_file_systems], for a file system named [share-<id>-manila]
    with [provisioned = s * 2^30]; it returns the location
    [<data_address>:/share-<id>-manila]. *)
Theorem create_share_nfs self share w versions :
  share_proto share = "NFS" →
  on_list_versions (_sys self) (calls w) = inr versions →
  (∀ fs, on_create_file_systems (_sys self) (calls w ++ [ListVersions]) fs
         = inr tt) →
  ∃ fs,
    create_share self share w
    = (Returns (data_address self +:+ ":/share-" +:+ share_id share
                  +:+ "-manila"),
       {| calls := calls w ++ [ListVersions; CreateFileSystems fs];
          logged := logged w |})
    ∧ fs_name fs = Some ("share-" +:+ share_id share +:+ "-manila")
    ∧ fs_provisioned fs = Some (share_size share * 2 ^ 30)
    ∧ fs_hard_limit_enabled fs = Some true
    ∧ (∃ nfs, fs_nfs fs = Some nfs ∧ nfs_rules nfs = Some "")
    ∧ fs_smb fs = None.
Proof.
  intros Hproto Hversions Hcreate.
  unfold create_share. rewrite Hproto. cbn [String.eqb Ascii.eqb Bool.eqb].
  unfold _get_full_nfs_export_path. unfold_monad. cbn.
  rewrite Hversions. cbn. rewrite Hcreate. cbn.
  rewrite <- app_assoc. cbn.
  eexists. split; [reflexivity|].
  case_bool_decide; cbn; eauto 10.
Qed.

Lemma create_share_nfs_witness :
  ∃ fs,
    create_share (driver_on (replying ["1.5"; "1.6"] [] [] []) false)
      nfs_share start
    = (Returns "10.0.0.5:/share-abc-manila",
       {| calls := [ListVersions; CreateFileSystems fs]; logged := [] |})
    ∧ fs_provisioned fs = Some 1073741824.
Proof.
  destruct (create_share_nfs
              (driver_on (replying ["1.5"; "1.6"] [] [] []) false)
              nfs_share start ["1.5"; "1.6"])
    as (fs & Hrun & _ & Hsize & _).
  - reflexivity.
  - reflexivity.
  - intros fs. reflexivity.
  - exists fs. split; [exact Hrun | exact Hsize].
Defined.

(** The two spellings of the NFS rule differ only by the API generation
    the array reports. *)
Lemma create_share_nfs_rule self share w versions fs :
  share_proto share = "NFS" →
  on_list_versions (_sys self) (calls w) = inr versions →
  CreateFileSystems fs ∈ calls (snd (create_share self share w)) →
  CreateFileSystems fs ∉ calls w →
  fs_nfs fs = Some (if bool_decide ("1.6" ∈ versions)
                    then mkNfsRule None (Some true) (Some true) (Some "")
                    else mkNfsRule (Some true) None None (Some "")).
Proof.
  intros Hproto Hversions.
  unfold create_share. rewrite Hproto. cbn [String.eqb Ascii.eqb Bool.eqb].
  unfold _get_full_nfs_export_path. unfold_monad. cbn.
  rewrite Hversions. cbn.
  destruct (on_create_file_systems _ _ _) as [e|[]]; cbn;
    [destruct e; cbn|].
  all: rewrite <- ?app_assoc; cbn; intros Hin Hnotin.
  all: apply elem_of_app in Hin as [Hin|Hin]; [done|].
  all: apply elem_of_cons in Hin as [Hin|Hin]; [done|].
  all: apply list_elem_of_singleton in Hin; injection Hin as ->.
  all: by case_bool_decide.
Qed.

(** For a [CIFS] share on an array that accepts the create, the location
    returned has one backslash before the data address and one before the
    share name. *)
Lemma create_share_cifs self share w :
  share_proto share = "CIFS" →
  (∀ fs, on_create_file_systems (_sys self) (calls w) fs = inr tt) →
  ∃ fs,
    create_share self share w
    = (Returns ("\" +:+ data_address self +:+ "\share-" +:+ share_id share
                  +:+ "-manila"),
       {| calls := calls w ++ [CreateFileSystems fs]; logged := logged w |})
    ∧ fs_name fs = Some ("share-" +:+ share_id share +:+ "-manila")
    ∧ fs_provisioned fs = Some (share_size share * 2 ^ 30)
    ∧ fs_smb fs = Some {| proto_enabled := Some true |}
    ∧ fs_nfs fs = None.
Proof.
  intros Hproto Hcreate.
  unfold create_share. rewrite Hproto. cbn [String.eqb Ascii.eqb Bool.eqb].
  unfold _get_full_cifs_export_path. unfold_monad. cbn.
  rewrite Hcreate. cbn. eexists. split; [reflexivity|eauto].
Qed.

(** C6 (the code departs from the claim).  With data address [10.0.0.5],
    the location returned for a [CIFS] share begins with a single
    backslash; it is not the UNC path, which begins with two. *)
Theorem create_share_cifs_single_backslash :
  fst (create_share (driver_on (replying [] [] [] []) false) cifs_share start)
  = Returns "\10.0.0.5\share-abc-manila"
  ∧ fst (create_share (driver_on (replying [] [] [] []) false) cifs_share start)
    ≠ Returns "\\10.0.0.5\share-abc-manila".
Proof. split; [reflexivity | discriminate]. Qed.

(** ** Capacity *)

(** *** Conversion and division in binary64 *)

Lemma digits2_pos_bounds (p : positive) :
  2 ^ (Z.pos (digits2_pos p) - 1) ≤ Z.pos p < 2 ^ Z.pos (digits2_pos p).
Proof.
  induction p as [p IH|p IH|]; cbn [digits2_pos].
  - rewrite Pos2Z.inj_succ.
    replace (Z.succ (Z.pos (digits2_pos p)) - 1) with
      (Z.succ (Z.pos (digits2_pos p) - 1)) by lia.
    rewrite !Z.pow_succ_r by lia. lia.
  - rewrite Pos2Z.inj_succ.
    replace (Z.succ (Z.pos (digits2_pos p)) - 1) with
      (Z.succ (Z.pos (digits2_pos p) - 1)) by lia.
    rewrite !Z.pow_succ_r by lia. lia.
  - cbn. lia.
Qed.

Lemma digits2_pos_le_53 (p : positive) :
  Z.pos p < 2 ^ 53 → Z.pos (digits2_pos p) ≤ 53.
Proof.
  intros Hp. destruct (digits2_pos_bounds p) as [Hlo _].
  destruct (Z_le_gt_dec (Z.pos (digits2_pos p)) 53) as [|Hgt]; [done|].
  assert (2 ^ 53 ≤ 2 ^ (Z.pos (digits2_pos p) - 1)).
  { apply Z.pow_le_mono_r; lia. }
  lia.
Qed.

(** Appending [k] zero bits. *)
Lemma iter_xO_spec (p k : positive) :
  digits2_pos (Pos.iter xO p k) = (digits2_pos p + k)%positive
  ∧ Z.pos (Pos.iter xO p k) = Z.pos p * 2 ^ Z.pos k.
Proof.
  induction k as [|k IH] using Pos.peano_ind.
  - cbn. split; lia.
  - rewrite Pos.iter_succ. destruct IH as [IHd IHv]. cbn [digits2_pos].
    rewrite IHd. split; [lia|].
    rewrite Pos2Z.inj_xO, IHv, Pos2Z.inj_succ, Z.pow_succ_r by lia. lia.
Qed.

Lemma fexp_normal (e : Z) : -1021 ≤ e → fexp 53 1024 e = e - 53.
Proof. intros He. unfold fexp, emin. lia. Qed.

(** A full 53-bit mantissa in the normal range is not rounded. *)
Lemma round_aux_normal (s : bool) (m : positive) (e : Z) :
  digits2_pos m = 53%positive → -1074 ≤ e ≤ 971 →
  binary_round_aux 53 1024 s (Z.pos m) e loc_Exact = S754_finite s m e.
Proof.
  intros Hd He. unfold binary_round_aux, shr_fexp. cbn [Zdigits2].
  rewrite Hd, fexp_normal by lia.
  replace (53 + e - 53 - e) with 0 by lia. cbn.
  rewrite Hd, fexp_normal by lia.
  replace (53 + e - 53 - e) with 0 by lia. cbn.
  change (1024 - 53) with 971.
  destruct (Z.leb_spec e 971); [done|lia].
Qed.

(** An integer below 2^53 converts without rounding: its bits, shifted up
    to 53 digits. *)
Lemma binary_round_exact (s : bool) (p : positive) :
  Z.pos p < 2 ^ 53 →
  ∃ m, binary_round 53 1024 s p 0
       = S754_finite s m (Z.pos (digits2_pos p) - 53)
       ∧ digits2_pos m = 53%positive
       ∧ Z.pos m = Z.pos p * 2 ^ (53 - Z.pos (digits2_pos p)).
Proof.
  intros Hp. pose proof (digits2_pos_le_53 p Hp) as Hd.
  unfold binary_round. rewrite Z.add_0_r, fexp_normal by lia.
  unfold shl_align. rewrite Z.sub_0_r.
  destruct (Z.pos (digits2_pos p) - 53) as [|k|k] eqn:Hk; [|lia|].
  - exists p. rewrite round_aux_normal by lia.
    assert (digits2_pos p = 53%positive) as Hd53 by lia.
    rewrite Hd53. split; [done|]. split; [done|]. cbn. lia.
  - destruct (iter_xO_spec p k) as [Hdk Hvk].
    exists (Pos.iter xO p k).
    assert (digits2_pos (Pos.iter xO p k) = 53%positive) as Hd53 by lia.
    rewrite round_aux_normal by lia.
    split; [done|]. split; [done|].
    rewrite Hvk. f_equal. f_equal. lia.
Qed.

(** Dividing such a number by 2^30 lowers the exponent by 30. *)
Lemma SFdiv_Gi (s : bool) (m : positive) (e : Z) :
  digits2_pos m = 53%positive → -52 ≤ e ≤ 0 →
  SFdiv 53 1024 (S754_finite s m e) (binary64_of_Z (2 ^ 30))
  = S754_finite s m (e - 30).
Proof.
  intros Hd He.
  change (binary64_of_Z (2 ^ 30))
    with (S754_finite false 4503599627370496 (-22)).
  unfold SFdiv, SFdiv_core_binary. cbn [Zdigits2].
  rewrite Hd.
  change (Z.pos (digits2_pos 4503599627370496)) with 53.
  replace (53 + e - (53 + -22)) with (e + 22) by lia.
  rewrite fexp_normal by lia.
  replace (Z.min (e + 22 - 53) (e - -22)) with (e - 31) by lia.
  replace (e - -22 - (e - 31)) with 53 by lia.
  assert (IntDef.Z.div_eucl (Z.pos m ≪ 53) 4503599627370496
          = (Z.pos m~0, 0)) as ->.
  { change IntDef.Z.div_eucl with Z.div_eucl.
    pose proof (Z.div_eucl_eq (Z.pos m ≪ 53) 4503599627370496 ltac:(lia))
      as Heq.
    pose proof (Z.mod_pos_bound (Z.pos m ≪ 53) 4503599627370496 ltac:(lia))
      as Hb.
    unfold Z.modulo in Hb.
    destruct (Z.div_eucl (Z.pos m ≪ 53) 4503599627370496) as [q r].
    rewrite Z.shiftl_mul_pow2 in Heq by lia.
    change (2 ^ 53) with (2 * 4503599627370496) in Heq.
    assert (q = Z.pos m~0 ∧ r = 0) as [-> ->]; [|done].
    rewrite Pos2Z.inj_xO. nia. }
  change (new_location 4503599627370496 0) with loc_Exact.
  rewrite xorb_false_r.
  unfold binary_round_aux, shr_fexp. cbn [Zdigits2 digits2_pos].
  rewrite Hd. change (Z.pos (Pos.succ 53)) with 54.
  rewrite fexp_normal by lia.
  replace (54 + (e - 31) - 53 - (e - 31)) with 1 by lia. cbn.
  rewrite Hd, fexp_normal by lia.
  replace (53 + (e - 31 + 1) - 53 - (e - 31 + 1)) with 0 by lia. cbn.
  change (1024 - 53) with 971.
  destruct (Z.leb_spec (e - 31 + 1) 971); [|lia].
  f_equal. lia.
Qed.

(** The shape of [float(n) / 2**30] for [n] below 2^53 in absolute
    value: no infinity, no NaN, and mantissa and exponent that stand for
    [n / 2^30]. *)
Lemma gib_shape (n : Z) :
  Z.abs n < 2 ^ 53 →
  match binary64_of_Z n with S754_infinity _ => False | _ => True end
  ∧ match SFdiv 53 1024 (binary64_of_Z n) (binary64_of_Z (2 ^ 30)) with
    | S754_zero _ => n = 0
    | S754_finite s m e =>
        e ≤ -30 ∧ (if s then Z.neg m else Z.pos m) = n * 2 ^ (-30 - e)
    | _ => False
    end.
Proof.
  intros Hn. destruct n as [|p|p]; [done| |].
  - unfold binary64_of_Z at 1 2, binary_normalize.
    destruct (binary_round_exact false p ltac:(lia)) as (m & -> & Hd & Hv).
    pose proof (digits2_pos_le_53 p ltac:(lia)).
    rewrite SFdiv_Gi by lia. split; [done|].
    split; [lia|]. rewrite Hv. do 2 f_equal. lia.
  - unfold binary64_of_Z at 1 2, binary_normalize.
    destruct (binary_round_exact true p ltac:(lia)) as (m & -> & Hd & Hv).
    pose proof (digits2_pos_le_53 p ltac:(lia)).
    rewrite SFdiv_Gi by lia. split; [done|].
    split; [lia|].
    replace (-30 - (Z.pos (digits2_pos p) - 53 - 30))
      with (53 - Z.pos (digits2_pos p)) by lia. lia.
Qed.

(** Below 2^53 the quotient is exact. *)
Lemma gib_exact (n : Z) :
  Z.abs n < 2 ^ 53 →
  exactly (SFdiv 53 1024 (binary64_of_Z n) (binary64_of_Z (2 ^ 30)))
          (n # (2 ^ 30)).
Proof.
  intros Hn. destruct (gib_shape n Hn) as [_ Hex]. unfold exactly.
  destruct (SFdiv _ _ _ _) as [s| |  |s m e]; try done.
  - subst n. eexists. split; reflexivity.
  - destruct Hex as [He Hm]. eexists. split; [reflexivity|].
    rewrite Hm.
    set (k := -30 - e) in *. replace e with (- (k + 30)) by lia.
    assert (0 ≤ k) by lia.
    rewrite Qpower_opp, <- (Zpower_Qpower 2 (k + 30)) by lia.
    rewrite Z.pow_add_r by lia.
    rewrite (Qmake_Qdiv n (2 ^ 30)).
    change (Z.pos (2 ^ 30)) with (2 ^ 30).
    rewrite !inject_Z_mult.
    assert (¬ (inject_Z (2 ^ k) == 0)%Q) as Hk.
    { intros Heq. unfold Qeq in Heq. cbn in Heq. lia. }
    field. split; [discriminate | exact Hk].
Qed.

(** [float(n) / units.Gi] as the driver computes it. *)
Lemma gib_run (n : Z) w :
  match binary64_of_Z n with S754_infinity _ => False | _ => True end →
  bind (float n) (λ x, truediv x units.Gi) w
  = (Returns (SFdiv 53 1024 (binary64_of_Z n) (binary64_of_Z (2 ^ 30))), w).
Proof.
  intros Hfin. unfold bind, float, truediv, bind, float, ret, raise.
  change (binary64_of_Z units.Gi)
    with (S754_finite false 4503599627370496 (-22)).
  change (binary64_of_Z (2 ^ 30))
    with (S754_finite false 4503599627370496 (-22)).
  by destruct (binary64_of_Z n).
Qed.

(** When the conversion overflows, nothing is returned. *)
Lemma gib_overflow (n : Z) w s :
  binary64_of_Z n = S754_infinity s →
  bind (float n) (λ x, truediv x units.Gi) w
  = (Raises (OtherError "OverflowError: int too large to convert to float"),
     w).
Proof. intros Hinf. unfold bind, float, raise. by rewrite Hinf. Qed.

Ltac gib_overflows H :=
  match type of H with
  | binary64_of_Z ?n = S754_infinity ?s =>
      match goal with
      | |- context [bind (float n) _ ?w0] =>
          rewrite (gib_overflow n w0 s H); cbn; discriminate
      end
  end.

Ltac gib_runs H :=
  match type of H with
  | binary64_of_Z ?n = _ =>
      match goal with
      | |- context [bind (float n) _ ?w0] =>
          rewrite (gib_run n w0) by (by rewrite H); rewrite H
      end
  end.

(** C7. From the first space record the array returns, the capacity
    reporter derives, in bytes, free = capacity - total_physical,
    total = capacity and provisioned = unique, and passes the data
    reduction on.  The stats a refresh returns hold each of the three
    converted to a binary64 float and divided by 2^30; for byte counts
    below 2^53 in absolute value the refresh does return, and each GiB
    value is exactly the byte count over 2^30. *)
Theorem capacity_report self w array_space rest :
  on_list_arrays_space (_sys self) (calls w) = inr (array_space :: rest) →
  let total := capacity array_space in
  let free := capacity array_space - total_physical (space array_space) in
  let provisioned := unique (space array_space) in
  fst (_get_available_capacity self w)
  = Returns (free, total, provisioned, data_reduction (space array_space))
  ∧ (∀ stats,
       fst (_update_share_stats self w) = Returns stats →
       total_capacity_gb stats
       = SFdiv 53 1024 (binary64_of_Z total) (binary64_of_Z (2 ^ 30))
       ∧ free_capacity_gb stats
         = SFdiv 53 1024 (binary64_of_Z free) (binary64_of_Z (2 ^ 30))
       ∧ provisioned_capacity_gb stats
         = SFdiv 53 1024 (binary64_of_Z provisioned) (binary64_of_Z (2 ^ 30))
       ∧ stats_data_reduction stats = data_reduction (space array_space))
  ∧ (Z.abs total < 2 ^ 53 → Z.abs free < 2 ^ 53 →
     Z.abs provisioned < 2 ^ 53 →
     ∃ stats,
       fst (_update_share_stats self w) = Returns stats
       ∧ exactly (total_capacity_gb stats) (total # (2 ^ 30))
       ∧ exactly (free_capacity_gb stats) (free # (2 ^ 30))
       ∧ exactly (provisioned_capacity_gb stats) (provisioned # (2 ^ 30))).
Proof.
  intros Hreply total free provisioned.
  assert (_get_available_capacity self w
          = (Returns (free, total, provisioned,
                      data_reduction (space array_space)),
             {| calls := calls w ++ [ListArraysSpace];
                logged := logged w |})) as Hbytes.
  { unfold _get_available_capacity. unfold_monad. cbn. by rewrite Hreply. }
  split; [by rewrite Hbytes|].
  unfold _update_share_stats. split.
  - intros stats. unfold bind at 1. rewrite Hbytes.
    unfold bind at 1.
    destruct (binary64_of_Z total) as [?|s1| |? ? ?] eqn:Ht;
      [ | gib_overflows Ht | | ].
    all: gib_runs Ht; unfold bind at 1.
    all: destruct (binary64_of_Z free) as [?|s2| |? ? ?] eqn:Hf;
      [ | gib_overflows Hf | | ].
    all: gib_runs Hf; unfold bind at 1.
    all: destruct (binary64_of_Z provisioned) as [?|s3| |? ? ?] eqn:Hp;
      [ | gib_overflows Hp | | ].
    all: gib_runs Hp.
    all: unfold ret; cbn; by intros [= <-].
  - intros Htotal Hfree Hprov.
    destruct (gib_shape total Htotal) as [Ht _].
    destruct (gib_shape free Hfree) as [Hf _].
    destruct (gib_shape provisioned Hprov) as [Hp _].
    unfold bind at 1. rewrite Hbytes.
    unfold bind at 1.
    match goal with
    | |- context [bind (float total) _ ?w0] => rewrite (gib_run total w0 Ht)
    end.
    unfold bind at 1.
    match goal with
    | |- context [bind (float free) _ ?w0] => rewrite (gib_run free w0 Hf)
    end.
    unfold bind at 1.
    match goal with
    | |- context [bind (float provisioned) _ ?w0] =>
        rewrite (gib_run provisioned w0 Hp)
    end.
    eexists. split; [reflexivity|]. cbn.
    split; [by apply gib_exact|]. split; by apply gib_exact.
Qed.

Lemma capacity_report_witness :
  fst (_get_available_capacity
         (driver_on (replying [] [] [] [space_example]) false) start)
  = Returns (600, 1000, 250, S754_finite false 6755399441055744 (-52))
  ∧ ∃ stats,
      fst (_update_share_stats
             (driver_on (replying [] [] [] [space_example]) false) start)
      = Returns stats
      ∧ exactly (total_capacity_gb stats) (1000 # 1073741824)
      ∧ exactly (free_capacity_gb stats) (600 # 1073741824)
      ∧ exactly (provisioned_capacity_gb stats) (250 # 1073741824).
Proof.
  destruct (capacity_report
              (driver_on (replying [] [] [] [space_example]) false)
              start space_example [] eq_refl)
    as (Hbytes & _ & Hexact).
  split; [exact Hbytes|].
  apply Hexact; reflexivity.
Defined.

(** Past 2^53 the conversion rounds: for a capacity of 2^53 + 1 bytes the
    reported total is 8388608.0, the value of 2^53 bytes. *)
Lemma capacity_report_rounds :
  let array_space :=
    {| capacity := 2 ^ 53 + 1;
       space := {| data_reduction := S754_zero false;
                   total_physical := 0; unique := 0 |} |} in
  ∃ stats,
    fst (_update_share_stats
           (driver_on (replying [] [] [] [array_space]) false) start)
    = Returns stats
    ∧ total_capacity_gb stats = S754_finite false 4503599627370496 (-29)
    ∧ exactly (total_capacity_gb stats) (2 ^ 53 # 2 ^ 30).
Proof.
  eexists. split; [vm_compute; reflexivity|]. split; [reflexivity|].
  eexists. split; [reflexivity|]. reflexivity.
Qed.

(** ** Order of the calls of the delete operations *)

(** The calls [delete_share] adds: the listing; then, if the locator
    returned, the soft-delete update; then, if the update returned and the
    eradication flag is set, the hard delete. *)
Lemma delete_share_calls self share w :
  let name := _make_share_name share in
  ∃ new,
    calls (snd (delete_share self share w)) = calls w ++ new
    ∧ (new = [ListFileSystems [name]]
       ∨ new = [ListFileSystems [name];
                UpdateFileSystems name destroy_file_system]
       ∨ (flashblade_eradicate self = true
          ∧ new = [ListFileSystems [name];
                   UpdateFileSystems name destroy_file_system;
                   DeleteFileSystems name])).
Proof.
  unfold delete_share, _get_flashblade_filesystem_by_name.
  unfold_monad. cbn.
  destruct (on_list_file_systems _ _ _) as [e|[|[fs|] rest]]; cbn;
    [destruct e; cbn; eauto.. | eauto | | rewrite <- ?app_assoc; eauto].
  destruct (on_update_file_systems _ _ _ _) as [e|[]]; cbn;
    [destruct e; cbn; rewrite <- ?app_assoc; eauto 6..|].
  destruct (flashblade_eradicate self) eqn:Herad; cbn;
    [|rewrite <- ?app_assoc; eauto 6].
  destruct (on_delete_file_systems _ _ _) as [e|[]]; cbn;
    [destruct e; cbn|]; rewrite <- ?app_assoc; eauto 8.
Qed.

Lemma delete_snapshot_calls self snapshot w :
  let filt := snapshot_filter snapshot in
  let name := snapshot_full_name snapshot in
  let destroy := {| snap_name := None; snap_suffix := None;
                    snap_destroyed := Some true |} in
  ∃ new,
    calls (snd (delete_snapshot self snapshot w)) = calls w ++ new
    ∧ (new = [ListFileSystemSnapshots filt]
       ∨ new = [ListFileSystemSnapshots filt;
                UpdateFileSystemSnapshots name destroy]
       ∨ (flashblade_eradicate self = true
          ∧ new = [ListFileSystemSnapshots filt;
                   UpdateFileSystemSnapshots name destroy;
                   DeleteFileSystemSnapshots name])).
Proof.
  unfold delete_snapshot, _get_flashblade_snapshot_by_name,
    snapshot_filter, snapshot_full_name.
  unfold_monad. cbn.
  destruct (on_list_file_system_snapshots _ _ _) as [e|[|item rest]]; cbn;
    [destruct e; cbn; eauto.. | eauto | ].
  destruct (on_update_file_system_snapshots _ _ _ _) as [e|[]]; cbn;
    [destruct e; cbn; rewrite <- ?app_assoc; eauto 6..|].
  destruct (flashblade_eradicate self) eqn:Herad; cbn;
    [|rewrite <- ?app_assoc; eauto 6].
  destruct (on_delete_file_system_snapshots _ _ _) as [e|[]]; cbn;
    [destruct e; cbn|]; rewrite <- ?app_assoc; eauto 8.
Qed.

(** A listing alone, or followed by an update, holds no hard delete. *)
Lemma soft_before_hard_short l u :
  hard_delete l = false → hard_delete u = false →
  soft_before_hard [l] ∧ soft_before_hard [l; u].
Proof.
  intros Hl Hu. split; intros pre c post Heq.
  - destruct pre as [|? [|? ?]]; simplify_eq/=. by destruct c.
  - destruct pre as [|? [|? [|? ?]]]; simplify_eq/=; by destruct c.
Qed.

Lemma soft_before_hard_file_system l name attributes :
  hard_delete l = false → fs_destroyed attributes = Some true →
  soft_before_hard [l; UpdateFileSystems name attributes;
                    DeleteFileSystems name].
Proof.
  intros Hl Hdestroyed pre c post Heq.
  destruct pre as [|? [|? [|? [|? ?]]]]; simplify_eq/=; try done.
  - by destruct c.
  - exists attributes. split; [done|set_solver].
Qed.

Lemma soft_before_hard_snapshot l name attributes :
  hard_delete l = false → snap_destroyed attributes = Some true →
  soft_before_hard [l; UpdateFileSystemSnapshots name attributes;
                    DeleteFileSystemSnapshots name].
Proof.
  intros Hl Hdestroyed pre c post Heq.
  destruct pre as [|? [|? [|? [|? ?]]]]; simplify_eq/=; try done.
  - by destruct c.
  - exists attributes. split; [done|set_solver].
Qed.

Lemma no_hard_delete (new : list Call) (P : Prop) :
  forallb (λ c, negb (hard_delete c)) new = true →
  ∀ c, c ∈ new → hard_delete c = true → P.
Proof.
  rewrite forallb_forall. intros Hall c Hin%list_elem_of_In Hhard.
  apply Hall in Hin. rewrite Hhard in Hin. discriminate.
Qed.

(** C8. In every run of [delete_share] and of [delete_snapshot], the calls
    the run adds contain a hard delete only after a soft-delete update
    ([destroyed=True]) of the same name, and only when the eradication
    flag is set. *)
Theorem hard_delete_follows_soft_delete self w :
  (∀ share, ∃ new,
      calls (snd (delete_share self share w)) = calls w ++ new
      ∧ soft_before_hard new
      ∧ (∀ c, c ∈ new → hard_delete c = true →
              flashblade_eradicate self = true))
  ∧ (∀ snapshot, ∃ new,
      calls (snd (delete_snapshot self snapshot w)) = calls w ++ new
      ∧ soft_before_hard new
      ∧ (∀ c, c ∈ new → hard_delete c = true →
              flashblade_eradicate self = true)).
Proof.
  split.
  - intros share.
    destruct (delete_share_calls self share w)
      as (new & Hcalls & [->|[->|[Herad ->]]]);
      eexists; (split; [exact Hcalls|]); split.
    + by apply (soft_before_hard_short _ (ListFileSystems [])).
    + by apply no_hard_delete.
    + by apply soft_before_hard_short.
    + by apply no_hard_delete.
    + by apply soft_before_hard_file_system.
    + done.
  - intros snapshot.
    destruct (delete_snapshot_calls self snapshot w)
      as (new & Hcalls & [->|[->|[Herad ->]]]);
      eexists; (split; [exact Hcalls|]); split.
    + by apply (soft_before_hard_short _ (ListFileSystems [])).
    + by apply no_hard_delete.
    + by apply soft_before_hard_short.
    + by apply no_hard_delete.
    + by apply soft_before_hard_snapshot.
    + done.
Qed.

(** ** Existence checks *)

Lemma lookup_before_mutation_nil : lookup_before_mutation [].
Proof. intros pre c post Heq. by destruct pre. Qed.

(** A listing followed by calls that, when mutating, have that listing
    as the check of their target. *)
Lemma lookup_before_mutation_after l rest :
  mutating l = false →
  Forall (λ c, mutating c = true → checks_target l c) rest →
  lookup_before_mutation (l :: rest).
Proof.
  intros Hl Hrest pre c post Heq Hmut.
  destruct pre as [|l' pre]; simplify_eq/=; [congruence|].
  exists l'. split; [by left|].
  rewrite Forall_forall in Hrest. apply Hrest; [|done].
  apply elem_of_app. right. by left.
Qed.

(** The rendering loop neither calls the array nor logs. *)
Lemma render_nfs_rules_world access_rules acc w :
  snd (render_nfs_rules access_rules acc w) = w.
Proof.
  revert acc. induction access_rules as [|access rest IH]; intros acc; [done|].
  cbn [render_nfs_rules]. destruct (String.eqb _ _); [|apply IH].
  unfold bind, _get_flashblade_access_level.
  destruct (_ !! _); cbn; [apply IH|done].
Qed.

Lemma resize_share_calls self share new_size w :
  ∃ rest, calls (snd (_resize_share self share new_size w))
          = calls w ++ ListFileSystems [_make_share_name share] :: rest
          ∧ (rest = []
             ∨ ∃ attributes,
                 rest = [UpdateFileSystems (_make_share_name share) attributes]).
Proof.
  unfold _resize_share, _get_flashblade_filesystem_by_name.
  unfold_monad. cbn.
  destruct (on_list_file_systems _ _ _) as [e|[|[fs|] rest]]; cbn;
    [destruct e; cbn; eauto.. | eauto | | eauto].
  destruct (on_update_file_systems _ _ _ _) as [e|[]]; cbn;
    [destruct e; cbn|]; rewrite <- ?app_assoc; eauto 6.
Qed.

Lemma update_nfs_access_calls self share access_rules w :
  ∃ rest, calls (snd (_update_nfs_access self share access_rules w))
          = calls w ++ ListFileSystems [_make_share_name share] :: rest
          ∧ (rest = []
             ∨ ∃ attributes,
                 rest = [UpdateFileSystems (_make_share_name share) attributes]).
Proof.
  unfold _update_nfs_access, _get_flashblade_filesystem_by_name.
  unfold_monad. cbn.
  destruct (on_list_file_systems _ _ _) as [e|[|[fs|] rest]]; cbn;
    [destruct e; cbn; eauto.. | eauto | | eauto].
  match goal with
  | |- context [render_nfs_rules ?l ?acc ?w1] =>
      pose proof (render_nfs_rules_world l acc w1) as Hworld;
      destruct (render_nfs_rules l acc w1) as [[nfs_rules|e] w2]
  end; cbn in Hworld; subst w2; cbn.
  - destruct (on_update_file_systems _ _ _ _) as [e|[]]; cbn;
      [destruct e; cbn|]; rewrite <- ?app_assoc; eauto 6.
  - destruct e; cbn; eauto.
Qed.

Lemma create_share_calls self share w :
  ∃ new, calls (snd (create_share self share w)) = calls w ++ new
         ∧ ∀ c, c ∈ new → locator_lookup c = false.
Proof.
  unfold create_share, _get_full_nfs_export_path, _get_full_cifs_export_path.
  unfold_monad.
  destruct (String.eqb (share_proto share) "NFS"); cbn.
  - destruct (on_list_versions _ _) as [e|versions]; cbn.
    { exists [ListVersions]. split; [by destruct e|].
      by intros c ->%list_elem_of_singleton. }
    destruct (on_create_file_systems _ _ _) as [e|[]]; cbn;
      [destruct e; cbn|]; rewrite <- ?app_assoc;
      (eexists; split; [reflexivity|]);
      intros c Hin; repeat (apply elem_of_cons in Hin as [->|Hin]; [done|]);
      by apply not_elem_of_nil in Hin.
  - destruct (String.eqb (share_proto share) "CIFS"); cbn.
    + destruct (on_create_file_systems _ _ _) as [e|[]]; cbn;
        [destruct e; cbn|];
        (eexists; split; [reflexivity|]);
        intros c Hin; repeat (apply elem_of_cons in Hin as [->|Hin]; [done|]);
        by apply not_elem_of_nil in Hin.
    + exists []. split; [by rewrite app_nil_r|].
      by intros c Hin%not_elem_of_nil.
Qed.

Lemma create_snapshot_calls self snapshot w :
  ∃ e, calls (snd (create_snapshot self snapshot w))
       = calls w ++ [CreateFileSystemSnapshots [_make_source_name snapshot]
                       (snapshot_id snapshot)]
       ∧ (fst (create_snapshot self snapshot w) = Returns tt
          ∨ fst (create_snapshot self snapshot w) = Raises e).
Proof.
  unfold create_snapshot. unfold_monad. cbn.
  destruct (on_create_file_system_snapshots _ _ _ _) as [e|[]]; cbn;
    [destruct e; cbn|]; eauto.
  Unshelve. exact IndexError.
Qed.

(** The claim that every operation looks the target up before it mutates
    fails on [create_share]: for a [CIFS] share the create is the first and
    only call. *)
Lemma create_share_mutates_unchecked :
  calls (snd (perform (driver_on (replying [] [] [] []) false)
                      (CreateShare cifs_share) start))
  = [CreateFileSystems
       {| fs_name := Some "share-abc-manila";
          fs_provisioned := Some 1073741824;
          fs_hard_limit_enabled := Some true;
          fs_fast_remove_directory_enabled := Some true;
          fs_snapshot_directory_enabled := Some true;
          fs_nfs := None;
          fs_smb := Some {| proto_enabled := Some true |};
          fs_destroyed := None |}]
  ∧ ¬ checks_before_mutating (driver_on (replying [] [] [] []) false)
        (CreateShare cifs_share) start.
Proof.
  split; [reflexivity|].
  intros (new & Hcalls & Hcheck).
  change (calls start ++ new) with new in Hcalls. subst new.
  destruct (Hcheck [] _ [] eq_refl eq_refl) as (l & Hin & _).
  by apply not_elem_of_nil in Hin.
Qed.

(** [create_snapshot] likewise: its one call is the create. *)
Lemma create_snapshot_mutates_unchecked :
  ¬ checks_before_mutating (driver_on (replying [] [] [] []) false)
      (CreateSnapshot snap1) start.
Proof.
  intros (new & Hcalls & Hcheck).
  change (calls start ++ new) with new in Hcalls. subst new.
  destruct (Hcheck [] _ [] eq_refl eq_refl) as (l & Hin & _).
  by apply not_elem_of_nil in Hin.
Qed.

(** C9 (amended).  The delete, resize and access-update operations (and
    [ensure_share], which calls nothing) issue the locator listing of
    their target before any mutating call on it: the file system's own
    name for a share, the source and suffix filter for a snapshot.
    [create_share] and [create_snapshot] never consult a locator: they
    issue their create without an existence check. *)
Theorem existence_checked_except_on_create self op w :
  match op with
  | CreateShare _ | CreateSnapshot _ => never_looks_up self op w
  | _ => checks_before_mutating self op w
  end.
Proof.
  destruct op as [share|share|snapshot|snapshot|share
                 |share access_rules add_rules delete_rules
                 |share new_size|share new_size];
    unfold never_looks_up, checks_before_mutating; cbn [perform].
  - destruct (create_share_calls self share w) as (new & Hcalls & Hnone).
    exists new. split; [|done].
    unfold bind, ret. by destruct (create_share self share w) as [[?|?] ?].
  - destruct (delete_share_calls self share w)
      as (new & Hcalls & [->|[->|[_ ->]]]);
      eexists; (split; [exact Hcalls|]);
      (apply lookup_before_mutation_after; [done|]);
      repeat constructor.
  - destruct (create_snapshot_calls self snapshot w) as (e & Hcalls & _).
    eexists. split; [exact Hcalls|].
    by intros c ->%list_elem_of_singleton.
  - destruct (delete_snapshot_calls self snapshot w)
      as (new & Hcalls & [->|[->|[_ ->]]]);
      eexists; (split; [exact Hcalls|]);
      (apply lookup_before_mutation_after; [done|]);
      repeat constructor;
      intros _; exists (_make_source_name snapshot), (snapshot_id snapshot);
      done.
  - exists []. split; [by rewrite app_nil_r|].
    apply lookup_before_mutation_nil.
  - unfold update_access. destruct (String.eqb _ _).
    + destruct (update_nfs_access_calls self share access_rules w)
        as (rest & Hcalls & [->|[attributes ->]]);
        eexists; (split; [exact Hcalls|]);
        (apply lookup_before_mutation_after; [done|]);
        repeat constructor.
    + exists []. split; [by rewrite app_nil_r|].
      apply lookup_before_mutation_nil.
  - destruct (resize_share_calls self share new_size w)
      as (rest & Hcalls & [->|[attributes ->]]);
      eexists; (split; [exact Hcalls|]);
      (apply lookup_before_mutation_after; [done|]);
      repeat constructor.
  - destruct (resize_share_calls self share new_size w)
      as (rest & Hcalls & [->|[attributes ->]]);
      eexists; (split; [exact Hcalls|]);
      (apply lookup_before_mutation_after; [done|]);
      repeat constructor.
Qed.

(** A listing of some other name does not count as the check: the
    predicate refuses an update that follows the listing of an unrelated
    file system. *)
Lemma unrelated_listing_is_no_check :
  ¬ lookup_before_mutation
      [ListFileSystems ["unrelated"];
       UpdateFileSystems "share-abc-manila" destroy_file_system].
Proof.
  intros Hcheck.
  destruct (Hcheck [ListFileSystems ["unrelated"]] _ [] eq_refl eq_refl)
    as (l & Hin & Hl).
  apply list_elem_of_singleton in Hin as ->. discriminate.
Qed.

(** ** Access update on other protocols *)

(** C10. For a share whose protocol is not [NFS] ([CIFS] or anything
    else), [update_access] returns and leaves the world as it was: no SDK
    call, no log record, no exception. *)
Theorem update_access_non_nfs_noop
    self share access_rules add_rules delete_rules w :
  share_proto share ≠ "NFS" →
  update_access self share access_rules add_rules delete_rules w
  = (Returns tt, w).
Proof.
  intros Hproto. unfold update_access.
  destruct (String.eqb (share_proto share) "NFS") eqn:Heq; [|done].
  by apply String.eqb_eq in Heq.
Qed.

Lemma update_access_non_nfs_noop_witness :
  update_access (driver_on (replying [] [Some held_fs] [] []) false)
    cifs_share rules_bad_level [] [] start
  = (Returns tt, start)
  ∧ update_access (driver_on (replying [] [Some held_fs] [] []) false)
      {| share_id := "abc"; share_size := 1; share_proto := "nfs" |}
      rules_example [] [] start
    = (Returns tt, start).
Proof.
  split; apply update_access_non_nfs_noop; discriminate.
Defined.

(** * Further properties of the driver *)

(** ** The error translation decorator *)

(** Whatever [func] does, no [ApiException] leaves the decorated
    function. *)
Lemma decorated_no_api_exception {A} (func : M A) w str :
  fst (purity_fb_to_manila_exceptions func w) ≠ Raises (ApiException str).
Proof.
  unfold purity_fb_to_manila_exceptions. unfold_monad.
  destruct (func w) as [[a|e] w']; [done|]. by destruct e.
Qed.

(** An [ApiException] is replaced by a [ShareBackendException] whose
    message embeds the SDK's text, after exactly one log record. *)
Lemma decorated_translates {A} (func : M A) w w' str :
  func w = (Raises (ApiException str), w') →
  purity_fb_to_manila_exceptions func w
  = (Raises (ShareBackendException
               ("Caught exception from purity_fb: " +:+ str)),
     {| calls := calls w';
        logged := logged w' ++
          [(EXCEPTION, "Caught exception from purity_fb: " +:+ str)] |}).
Proof.
  intros Hrun. unfold purity_fb_to_manila_exceptions. unfold_monad.
  by rewrite Hrun.
Qed.

(** Every other outcome passes through untouched. *)
Lemma decorated_transparent {A} (func : M A) w :
  (∀ str, fst (func w) ≠ Raises (ApiException str)) →
  purity_fb_to_manila_exceptions func w = func w.
Proof.
  intros Hno. unfold purity_fb_to_manila_exceptions. unfold_monad.
  destruct (func w) as [[a|e] w']; [done|].
  destruct e; try done. by destruct (Hno str).
Qed.

(** Decorating twice is decorating once. *)
Lemma decorated_idempotent {A} (func : M A) w :
  purity_fb_to_manila_exceptions (purity_fb_to_manila_exceptions func) w
  = purity_fb_to_manila_exceptions func w.
Proof.
  apply decorated_transparent. intros str. apply decorated_no_api_exception.
Qed.

(** No lifecycle operation lets an [ApiException] of the SDK reach the
    orchestrator, whatever the array replies. *)
Theorem lifecycle_no_api_exception self op w str :
  fst (perform self op w) ≠ Raises (ApiException str).
Proof.
  destruct op as [share|share|snapshot|snapshot|share
                 |share access_rules add_rules delete_rules
                 |share new_size|share new_size]; cbn [perform].
  - pose proof (decorated_no_api_exception (A := string)) as Hno.
    unfold create_share, bind, ret.
    match goal with
    | |- context [purity_fb_to_manila_exceptions ?f w] =>
        specialize (Hno f w str);
        destruct (purity_fb_to_manila_exceptions f w) as [[a|e] w']
    end; cbn in *; congruence.
  - apply decorated_no_api_exception.
  - apply decorated_no_api_exception.
  - apply decorated_no_api_exception.
  - done.
  - unfold update_access. destruct (String.eqb _ _); [|done].
    apply decorated_no_api_exception.
  - apply decorated_no_api_exception.
  - apply decorated_no_api_exception.
Qed.

(** ** The capacity path is not decorated *)

(** A failure of [list_arrays_space] leaves [_update_share_stats] as it
    is, an [ApiException] included, with nothing logged; an empty [items]
    list raises [IndexError]. *)
Theorem stats_failures_untranslated self w :
  (∀ e, on_list_arrays_space (_sys self) (calls w) = inl e →
        _update_share_stats self w
        = (Raises e, {| calls := calls w ++ [ListArraysSpace];
                        logged := logged w |}))
  ∧ (on_list_arrays_space (_sys self) (calls w) = inr [] →
     _update_share_stats self w
     = (Raises IndexError, {| calls := calls w ++ [ListArraysSpace];
                              logged := logged w |})).
Proof.
  unfold _update_share_stats, _get_available_capacity. unfold_monad. cbn.
  split; [intros e|]; by intros ->.
Qed.

(** ** Locators *)

(** Whatever the array replies, each locator issues its one listing and
    nothing else: it never mutates. *)
Theorem locators_read_only self name w :
  calls (snd (_get_flashblade_filesystem_by_name self name w))
  = calls w ++ [ListFileSystems [name]]
  ∧ calls (snd (_get_flashblade_snapshot_by_name self name w))
    = calls w ++ [ListFileSystemSnapshots name].
Proof.
  unfold _get_flashblade_filesystem_by_name, _get_flashblade_snapshot_by_name.
  unfold_monad. cbn. split.
  - destruct (on_list_file_systems _ _ _) as [e|[|[fs|] rest]]; cbn;
      [by destruct e|done..].
  - destruct (on_list_file_system_snapshots _ _ _) as [e|[|item rest]]; cbn;
      [by destruct e|done..].
Qed.

(** The snapshot locator reports [ShareResourceNotFound], the one
    exception [delete_snapshot] is prepared for, only if the SDK call
    itself raised it; a missing snapshot is never turned into it. *)
Theorem locate_snapshot_not_found_iff self name w n :
  fst (_get_flashblade_snapshot_by_name self name w)
    = Raises (ShareResourceNotFound n)
  ↔ on_list_file_system_snapshots (_sys self) (calls w) name
    = inl (ShareResourceNotFound n).
Proof.
  unfold _get_flashblade_snapshot_by_name. unfold_monad. cbn.
  destruct (on_list_file_system_snapshots _ _ _) as [e|[|item rest]]; cbn.
  - destruct e; cbn; split; congruence.
  - split; congruence.
  - split; congruence.
Qed.

(** What the snapshot locator does with each reply: the first item as it
    is (a [None] too), [IndexError] on no item, [ShareSnapshotNotFound]
    for an [InvalidShare] of the SDK, and any other exception unchanged
    (the locator is not decorated). *)
Theorem locate_snapshot_outcomes self name w :
  fst (_get_flashblade_snapshot_by_name self name w)
  = match on_list_file_system_snapshots (_sys self) (calls w) name with
    | inr (item :: _) => Returns item
    | inr [] => Raises IndexError
    | inl (InvalidShare _) => Raises (ShareSnapshotNotFound name)
    | inl e => Raises e
    end.
Proof.
  unfold _get_flashblade_snapshot_by_name. unfold_monad. cbn.
  destruct (on_list_file_system_snapshots _ _ _) as [e|[|item rest]]; cbn;
    [by destruct e|done..].
Qed.

(** ** Resizing *)

(** The single attribute a resize sets. *)
Lemma resize_share_found self share new_size w fs rest :
  on_list_file_systems (_sys self) (calls w) [_make_share_name share]
    = inr (Some fs :: rest) →
  on_update_file_systems (_sys self)
    (calls w ++ [ListFileSystems [_make_share_name share]])
    (_make_share_name share)
    (mkFileSystem None (Some (new_size * 2 ^ 30)) None None None None None None)
    = inr tt →
  _resize_share self share new_size w
  = (Returns tt,
     {| calls := calls w ++
          [ListFileSystems [_make_share_name share];
           UpdateFileSystems (_make_share_name share)
             (mkFileSystem None (Some (new_size * 2 ^ 30))
                           None None None None None None)];
        logged := logged w |}).
Proof.
  intros Hreply Hupdate. unfold _resize_share.
  unfold purity_fb_to_manila_exceptions at 1.
  unfold try_except at 1, bind at 1, try_except at 1, bind at 1.
  rewrite (locate_filesystem_found _ _ _ _ _ Hreply). cbn.
  unfold_monad. cbn. unfold units.Gi. rewrite Hupdate. cbn.
  by rewrite <- app_assoc.
Qed.

(** On a share the array lists, [extend_share] and [shrink_share] alike
    issue one update that sets [provisioned] to [new_size * 2^30] and no
    other attribute.  Nothing compares [new_size] with the current size:
    any integer goes to the array. *)
Theorem resize_sets_provisioned self share new_size w fs rest :
  on_list_file_systems (_sys self) (calls w) [_make_share_name share]
    = inr (Some fs :: rest) →
  on_update_file_systems (_sys self)
    (calls w ++ [ListFileSystems [_make_share_name share]])
    (_make_share_name share)
    (mkFileSystem None (Some (new_size * 2 ^ 30)) None None None None None None)
    = inr tt →
  ∃ w',
    extend_share self share new_size w = (Returns tt, w')
    ∧ shrink_share self share new_size w = (Returns tt, w')
    ∧ logged w' = logged w
    ∧ calls w' = calls w ++
        [ListFileSystems [_make_share_name share];
         UpdateFileSystems (_make_share_name share)
           (mkFileSystem None (Some (new_size * 2 ^ 30))
                         None None None None None None)].
Proof.
  intros Hreply Hupdate. eexists. unfold extend_share, shrink_share.
  rewrite (resize_share_found _ _ _ _ _ _ Hreply Hupdate). done.
Qed.

Lemma resize_sets_provisioned_witness :
  snd (shrink_share (driver_on (replying [] [Some held_fs] [] []) false)
         nfs_share 0 start)
  = {| calls := [ListFileSystems ["share-abc-manila"];
                 UpdateFileSystems "share-abc-manila"
                   (mkFileSystem None (Some 0) None None None None None None)];
       logged := [] |}.
Proof.
  destruct (resize_sets_provisioned
              (driver_on (replying [] [Some held_fs] [] []) false)
              nfs_share 0 start held_fs [] eq_refl eq_refl)
    as (w' & _ & Hshrink & Hlog & Hcalls).
  rewrite Hshrink. cbn [snd]. destruct w' as [c l]. cbn in *. by subst.
Defined.

(** On a share whose listing has a [None] first item, a resize returns
    after a warning; the listing is its only call. *)
Theorem resize_absent_noop self share new_size w rest :
  on_list_file_systems (_sys self) (calls w) [_make_share_name share]
    = inr (None :: rest) →
  _resize_share self share new_size w
  = (Returns tt,
     {| calls := calls w ++ [ListFileSystems [_make_share_name share]];
        logged := logged w ++
          [(ERROR, "Filesystem not found on FlashBlade by name: "
                     +:+ _make_share_name share);
           (WARNING, "share " +:+ _make_share_name share
                       +:+ " not found on FlashBlade, skip extend")] |}).
Proof.
  intros Hreply. unfold _resize_share.
  unfold purity_fb_to_manila_exceptions at 1.
  unfold try_except at 1, bind at 1, try_except at 1, bind at 1.
  rewrite (locate_filesystem_absent _ _ _ _ Hreply). cbn.
  by rewrite <- app_assoc.
Qed.

Lemma resize_absent_noop_witness :
  extend_share (driver_on (replying [] [None] [] []) false) nfs_share 5 start
  = (Returns tt,
     {| calls := [ListFileSystems ["share-abc-manila"]];
        logged :=
          [(ERROR, "Filesystem not found on FlashBlade by name: share-abc-manila");
           (WARNING, "share share-abc-manila not found on FlashBlade, skip extend")] |}).
Proof.
  exact (resize_absent_noop (driver_on (replying [] [None] [] []) false)
           nfs_share 5 start [] eq_refl).
Defined.

(** ** Creating a share: the other outcomes *)

(** A protocol other than [NFS] and [CIFS] is refused before any SDK
    call: one error record, then [InvalidShare] naming the protocol. *)
Theorem create_share_unsupported_protocol self share w :
  share_proto share ≠ "NFS" → share_proto share ≠ "CIFS" →
  create_share self share w
  = (Raises (InvalidShare ("Unsupported share protocol: "
                             +:+ share_proto share +:+ ".")),
     {| calls := calls w;
        logged := logged w ++
          [(ERROR, "Unsupported share protocol: "
                     +:+ share_proto share +:+ ".")] |}).
Proof.
  intros Hnfs Hcifs. unfold create_share.
  destruct (String.eqb (share_proto share) "NFS") eqn:H1;
    [by apply String.eqb_eq in H1|].
  destruct (String.eqb (share_proto share) "CIFS") eqn:H2;
    [by apply String.eqb_eq in H2|].
  unfold_monad. done.
Qed.

Lemma create_share_unsupported_protocol_witness :
  create_share (driver_on (replying [] [] [] []) false)
    {| share_id := "abc"; share_size := 1; share_proto := "SMB" |} start
  = (Raises (InvalidShare "Unsupported share protocol: SMB."),
     {| calls := [];
        logged := [(ERROR, "Unsupported share protocol: SMB.")] |}).
Proof.
  apply (create_share_unsupported_protocol
           (driver_on (replying [] [] [] []) false)
           {| share_id := "abc"; share_size := 1; share_proto := "SMB" |}
           start); discriminate.
Defined.

(** In every run, [create_share] issues at most one create, and it
    returns a location only if it has issued one. *)
Theorem create_share_at_most_one_create self share w :
  ∃ new,
    calls (snd (create_share self share w)) = calls w ++ new
    ∧ (length (List.filter creates_file_system new) ≤ 1)%nat
    ∧ ∀ location, fst (create_share self share w) = Returns location →
        length (List.filter creates_file_system new) = 1%nat.
Proof.
  unfold create_share, _get_full_nfs_export_path, _get_full_cifs_export_path.
  unfold_monad.
  destruct (String.eqb (share_proto share) "NFS"); cbn.
  - destruct (on_list_versions _ _) as [e|versions]; cbn.
    { exists [ListVersions]. split; [by destruct e|]. split; [cbn; lia|].
      intros location. by destruct e. }
    destruct (on_create_file_systems _ _ _) as [e|[]]; cbn;
      [destruct e; cbn|]; rewrite <- ?app_assoc;
      (eexists; split; [reflexivity|]); (split; [cbn; lia|]); done.
  - destruct (String.eqb (share_proto share) "CIFS"); cbn.
    + destruct (on_create_file_systems _ _ _) as [e|[]]; cbn;
        [destruct e; cbn|];
        (eexists; split; [reflexivity|]); (split; [cbn; lia|]); done.
    + exists []. split; [by rewrite app_nil_r|]. split; [cbn; lia|]. done.
Qed.

(** A fault of the version listing ends an NFS create before anything is
    created. *)
Theorem create_share_versions_fault self share w str :
  share_proto share = "NFS" →
  on_list_versions (_sys self) (calls w) = inl (ApiException str) →
  create_share self share w
  = (Raises (ShareBackendException
               ("Caught exception from purity_fb: " +:+ str)),
     {| calls := calls w ++ [ListVersions];
        logged := logged w ++
          [(EXCEPTION, "Caught exception from purity_fb: " +:+ str)] |}).
Proof.
  intros Hproto Hfault. unfold create_share. rewrite Hproto.
  cbn [String.eqb Ascii.eqb Bool.eqb]. unfold_monad. cbn.
  by rewrite Hfault.
Qed.

Lemma create_share_versions_fault_witness :
  fst (create_share
         (driver_on
            {| on_list_versions := λ _, inl (ApiException "503");
               on_list_arrays_space := λ _, inr [];
               on_list_file_systems := λ _ _, inr [];
               on_create_file_systems := λ _ _, inr tt;
               on_update_file_systems := λ _ _ _, inr tt;
               on_delete_file_systems := λ _ _, inr tt;
               on_list_file_system_snapshots := λ _ _, inr [];
               on_create_file_system_snapshots := λ _ _ _, inr tt;
               on_update_file_system_snapshots := λ _ _ _, inr tt;
               on_delete_file_system_snapshots := λ _ _, inr tt |} false)
         nfs_share start)
  = Raises (ShareBackendException "Caught exception from purity_fb: 503").
Proof.
  erewrite create_share_versions_fault; reflexivity.
Defined.

(** The NFS rule follows the API generation, whether or not the create
    then succeeds: with [1.6] among the versions both v3 and v4.1 are
    enabled, otherwise the single legacy flag; the rule string starts
    empty either way. *)
Theorem create_share_nfs_negotiation self share w versions :
  share_proto share = "NFS" →
  on_list_versions (_sys self) (calls w) = inr versions →
  ∃ fs,
    calls (snd (create_share self share w))
    = calls w ++ [ListVersions; CreateFileSystems fs]
    ∧ fs_nfs fs
      = Some (if bool_decide ("1.6" ∈ versions)
              then mkNfsRule None (Some true) (Some true) (Some "")
              else mkNfsRule (Some true) None None (Some "")).
Proof.
  intros Hproto Hversions.
  unfold create_share. rewrite Hproto. cbn [String.eqb Ascii.eqb Bool.eqb].
  unfold _get_full_nfs_export_path. unfold_monad. cbn.
  rewrite Hversions. cbn.
  destruct (on_create_file_systems _ _ _) as [e|[]]; cbn;
    [destruct e; cbn|].
  all: rewrite <- ?app_assoc; cbn; eexists; (split; [reflexivity|]).
  all: by case_bool_decide.
Qed.

Lemma create_share_nfs_negotiation_witness :
  (∃ fs,
     calls (snd (create_share
                   (driver_on (replying ["1.5"; "1.6"] [] [] []) false)
                   nfs_share start))
     = [ListVersions; CreateFileSystems fs]
     ∧ fs_nfs fs = Some (mkNfsRule None (Some true) (Some true) (Some "")))
  ∧ (∃ fs,
       calls (snd (create_share
                     (driver_on (replying ["1.5"] [] [] []) false)
                     nfs_share start))
       = [ListVersions; CreateFileSystems fs]
       ∧ fs_nfs fs = Some (mkNfsRule (Some true) None None (Some ""))).
Proof.
  split.
  - exact (create_share_nfs_negotiation
             (driver_on (replying ["1.5"; "1.6"] [] [] []) false)
             nfs_share start ["1.5"; "1.6"] eq_refl eq_refl).
  - exact (create_share_nfs_negotiation
             (driver_on (replying ["1.5"] [] [] []) false)
             nfs_share start ["1.5"] eq_refl eq_refl).
Defined.

(** ** Creating a snapshot *)

(** [create_snapshot] issues one call whatever happens: a snapshot of the
    source [share-<share_instance_id>-manila] with the snapshot id as
    suffix.  It returns if the array accepts it. *)
Theorem create_snapshot_request self snapshot w :
  calls (snd (create_snapshot self snapshot w))
  = calls w ++ [CreateFileSystemSnapshots
                  ["share-" +:+ snapshot_share_instance_id snapshot
                     +:+ "-manila"]
                  (snapshot_id snapshot)]
  ∧ (on_create_file_system_snapshots (_sys self) (calls w)
       ["share-" +:+ snapshot_share_instance_id snapshot +:+ "-manila"]
       (snapshot_id snapshot) = inr tt →
     fst (create_snapshot self snapshot w) = Returns tt
     ∧ logged (snd (create_snapshot self snapshot w)) = logged w).
Proof.
  unfold create_snapshot, _make_source_name. unfold_monad. cbn.
  destruct (on_create_file_system_snapshots _ _ _ _) as [e|[]]; cbn.
  - split; [by destruct e|]. discriminate.
  - done.
Qed.

(** A [ShareResourceNotFound] of the SDK call becomes [InvalidShare]; its
    reason is the message template with the placeholder left in, while
    the log record has the source name filled in. *)
Theorem create_snapshot_source_missing self snapshot w n :
  on_create_file_system_snapshots (_sys self) (calls w)
    [_make_source_name snapshot] (snapshot_id snapshot)
    = inl (ShareResourceNotFound n) →
  fst (create_snapshot self snapshot w)
  = Raises (InvalidShare
              "share %(dataset_name)s not found on FlashBlade, skip create")
  ∧ logged (snd (create_snapshot self snapshot w))
    = logged w ++
        [(ERROR, "share share-" +:+ snapshot_share_instance_id snapshot
                   +:+ "-manila not found on FlashBlade, skip create")].
Proof.
  intros Hreply. unfold create_snapshot. unfold_monad. cbn.
  rewrite Hreply. cbn. split; [done|].
  do 3 f_equal. unfold _make_source_name.
  by rewrite !string_app_assoc.
Qed.

Lemma create_snapshot_source_missing_witness :
  let sys :=
    {| on_list_versions := λ _, inr [];
       on_list_arrays_space := λ _, inr [];
       on_list_file_systems := λ _ _, inr [];
       on_create_file_systems := λ _ _, inr tt;
       on_update_file_systems := λ _ _ _, inr tt;
       on_delete_file_systems := λ _ _, inr tt;
       on_list_file_system_snapshots := λ _ _, inr [];
       on_create_file_system_snapshots :=
         λ _ _ _, inl (ShareResourceNotFound "share-abc-manila");
       on_update_file_system_snapshots := λ _ _ _, inr tt;
       on_delete_file_system_snapshots := λ _ _, inr tt |} in
  fst (create_snapshot (driver_on sys false) snap1 start)
  = Raises (InvalidShare
              "share %(dataset_name)s not found on FlashBlade, skip create")
  ∧ logged (snd (create_snapshot (driver_on sys false) snap1 start))
    = [(ERROR, "share share-abc-manila not found on FlashBlade, skip create")].
Proof.
  intros sys.
  exact (create_snapshot_source_missing (driver_on sys false) snap1 start
           "share-abc-manila" eq_refl).
Defined.

(** ** Deleting: the found paths *)

(** On a share the array lists and with the array accepting the calls,
    [delete_share] returns after the combined soft-delete update (NFS v3
    and v4.1 off, SMB off, destroyed) and, exactly when the flag is set,
    the hard delete of the same name; nothing is logged. *)
Theorem delete_share_found self share w fs rest :
  let name := _make_share_name share in
  on_list_file_systems (_sys self) (calls w) [name] = inr (Some fs :: rest) →
  on_update_file_systems (_sys self) (calls w ++ [ListFileSystems [name]])
    name destroy_file_system = inr tt →
  on_delete_file_systems (_sys self)
    (calls w ++ [ListFileSystems [name];
                 UpdateFileSystems name destroy_file_system]) name = inr tt →
  delete_share self share w
  = (Returns tt,
     {| calls := calls w ++
          [ListFileSystems [name]; UpdateFileSystems name destroy_file_system]
          ++ (if flashblade_eradicate self
              then [DeleteFileSystems name] else []);
        logged := logged w |}).
Proof.
  intros name Hreply Hupdate Hdelete. unfold delete_share. fold name.
  unfold purity_fb_to_manila_exceptions at 1.
  unfold try_except at 1, bind at 1, try_except at 1, bind at 1.
  rewrite (locate_filesystem_found _ _ _ _ _ Hreply). cbn.
  unfold_monad. cbn. rewrite Hupdate. cbn.
  destruct (flashblade_eradicate self); cbn.
  - rewrite <- app_assoc. cbn. rewrite Hdelete. cbn.
    by rewrite <- app_assoc.
  - by rewrite <- app_assoc.
Qed.

Lemma delete_share_found_witness :
  delete_share (driver_on (replying [] [Some held_fs] [] []) false)
    nfs_share start
  = (Returns tt,
     {| calls := [ListFileSystems ["share-abc-manila"];
                  UpdateFileSystems "share-abc-manila" destroy_file_system];
        logged := [] |})
  ∧ delete_share (driver_on (replying [] [Some held_fs] [] []) true)
      nfs_share start
    = (Returns tt,
       {| calls := [ListFileSystems ["share-abc-manila"];
                    UpdateFileSystems "share-abc-manila" destroy_file_system;
                    DeleteFileSystems "share-abc-manila"];
          logged := [] |}).
Proof.
  split.
  - exact (delete_share_found
             (driver_on (replying [] [Some held_fs] [] []) false)
             nfs_share start held_fs [] eq_refl eq_refl eq_refl).
  - exact (delete_share_found
             (driver_on (replying [] [Some held_fs] [] []) true)
             nfs_share start held_fs [] eq_refl eq_refl eq_refl).
Defined.

(** If the soft-delete update faults, [delete_share] ends with a
    [ShareBackendException] and the hard delete is not attempted, flag or
    no flag. *)
Theorem delete_share_update_fault self share w fs rest str :
  let name := _make_share_name share in
  on_list_file_systems (_sys self) (calls w) [name] = inr (Some fs :: rest) →
  on_update_file_systems (_sys self) (calls w ++ [ListFileSystems [name]])
    name destroy_file_system = inl (ApiException str) →
  delete_share self share w
  = (Raises (ShareBackendException
               ("Caught exception from purity_fb: " +:+ str)),
     {| calls := calls w ++
          [ListFileSystems [name]; UpdateFileSystems name destroy_file_system];
        logged := logged w ++
          [(EXCEPTION, "Caught exception from purity_fb: " +:+ str)] |}).
Proof.
  intros name Hreply Hupdate. unfold delete_share. fold name.
  unfold purity_fb_to_manila_exceptions at 1.
  unfold try_except at 1, bind at 1, try_except at 1, bind at 1.
  rewrite (locate_filesystem_found _ _ _ _ _ Hreply). cbn.
  unfold_monad. cbn. rewrite Hupdate. cbn.
  by rewrite <- app_assoc.
Qed.

Lemma delete_share_update_fault_witness :
  let sys :=
    {| on_list_versions := λ _, inr [];
       on_list_arrays_space := λ _, inr [];
       on_list_file_systems := λ _ _, inr [Some held_fs];
       on_create_file_systems := λ _ _, inr tt;
       on_update_file_systems := λ _ _ _, inl (ApiException "409");
       on_delete_file_systems := λ _ _, inr tt;
       on_list_file_system_snapshots := λ _ _, inr [];
       on_create_file_system_snapshots := λ _ _ _, inr tt;
       on_update_file_system_snapshots := λ _ _ _, inr tt;
       on_delete_file_system_snapshots := λ _ _, inr tt |} in
  delete_share (driver_on sys true) nfs_share start
  = (Raises (ShareBackendException "Caught exception from purity_fb: 409"),
     {| calls := [ListFileSystems ["share-abc-manila"];
                  UpdateFileSystems "share-abc-manila" destroy_file_system];
        logged := [(EXCEPTION, "Caught exception from purity_fb: 409")] |}).
Proof.
  intros sys.
  exact (delete_share_update_fault (driver_on sys true) nfs_share start
           held_fs [] "409" eq_refl eq_refl).
Defined.

(** With a first item in the snapshot listing and the array accepting the
    calls, [delete_snapshot] lists with the filter
    [source='<source>' and suffix='<id>'], soft-deletes the name
    [<source>,<id>] and, exactly when the flag is set, hard-deletes the
    same name. *)
Theorem delete_snapshot_found self snapshot w item rest :
  let source := "share-" +:+ snapshot_share_instance_id snapshot
                  +:+ "-manila" in
  let filt := "source='" +:+ source +:+ "' and suffix='" +:+
              snapshot_id snapshot +:+ "'" in
  let name := source +:+ "," +:+ snapshot_id snapshot in
  let destroy := mkFileSystemSnapshot None None (Some true) in
  on_list_file_system_snapshots (_sys self) (calls w) filt
    = inr (item :: rest) →
  on_update_file_system_snapshots (_sys self)
    (calls w ++ [ListFileSystemSnapshots filt]) name destroy = inr tt →
  on_delete_file_system_snapshots (_sys self)
    (calls w ++ [ListFileSystemSnapshots filt;
                 UpdateFileSystemSnapshots name destroy]) name = inr tt →
  delete_snapshot self snapshot w
  = (Returns tt,
     {| calls := calls w ++
          [ListFileSystemSnapshots filt; UpdateFileSystemSnapshots name destroy]
          ++ (if flashblade_eradicate self
              then [DeleteFileSystemSnapshots name] else []);
        logged := logged w |}).
Proof.
  intros source filt name destroy Hreply Hupdate Hdelete.
  unfold delete_snapshot, _get_flashblade_snapshot_by_name, _make_source_name.
  fold source. fold filt. fold name.
  unfold_monad. cbn. rewrite Hreply. cbn. fold destroy.
  rewrite Hupdate. cbn.
  destruct (flashblade_eradicate self); cbn.
  - rewrite <- app_assoc. cbn. rewrite Hdelete. cbn.
    by rewrite <- app_assoc.
  - by rewrite <- app_assoc.
Qed.

Lemma delete_snapshot_found_witness :
  delete_snapshot (driver_on (replying [] [] [Some held_snapshot] []) true)
    snap1 start
  = (Returns tt,
     {| calls :=
          [ListFileSystemSnapshots
             "source='share-abc-manila' and suffix='snap1'";
           UpdateFileSystemSnapshots "share-abc-manila,snap1"
             (mkFileSystemSnapshot None None (Some true));
           DeleteFileSystemSnapshots "share-abc-manila,snap1"];
        logged := [] |}).
Proof.
  exact (delete_snapshot_found
           (driver_on (replying [] [] [Some held_snapshot] []) true)
           snap1 start (Some held_snapshot) [] eq_refl eq_refl eq_refl).
Defined.

Lemma delete_snapshot_never_skips_witness :
  UpdateFileSystemSnapshots "share-abc-manila,snap1"
    (mkFileSystemSnapshot None None (Some true))
  ∈ calls (snd (delete_snapshot
                  (driver_on (replying [] [] [None] []) false) snap1 start)).
Proof.
  exact (delete_snapshot_never_skips
           (driver_on (replying [] [] [None] []) false) snap1 start eq_refl).
Defined.

(** ** Access update on NFS shares *)

(** On an NFS share whose listing has a [None] first item,
    [update_access] returns after a warning and applies nothing. *)
Theorem update_access_absent_noop
    self share access_rules add_rules delete_rules w rest :
  share_proto share = "NFS" →
  on_list_file_systems (_sys self) (calls w) [_make_share_name share]
    = inr (None :: rest) →
  update_access self share access_rules add_rules delete_rules w
  = (Returns tt,
     {| calls := calls w ++ [ListFileSystems [_make_share_name share]];
        logged := logged w ++
          [(ERROR, "Filesystem not found on FlashBlade by name: "
                     +:+ _make_share_name share);
           (WARNING, "share " +:+ _make_share_name share
                       +:+ " not found on FlashBlade, skip update nfs access")]
     |}).
Proof.
  intros Hproto Hreply. unfold update_access. rewrite Hproto.
  cbn [String.eqb Ascii.eqb Bool.eqb]. unfold _update_nfs_access.
  unfold purity_fb_to_manila_exceptions at 1.
  unfold try_except at 1, bind at 1, try_except at 1, bind at 1.
  rewrite (locate_filesystem_absent _ _ _ _ Hreply). cbn.
  by rewrite <- app_assoc.
Qed.

Lemma update_access_absent_noop_witness :
  fst (update_access (driver_on (replying [] [None] [] []) false)
         nfs_share rules_bad_level [] [] start) = Returns tt
  ∧ calls (snd (update_access (driver_on (replying [] [None] [] []) false)
                  nfs_share rules_bad_level [] [] start))
    = [ListFileSystems ["share-abc-manila"]].
Proof.
  rewrite (update_access_absent_noop
             (driver_on (replying [] [None] [] []) false)
             nfs_share rules_bad_level [] [] start [] eq_refl eq_refl).
  split; reflexivity.
Defined.

(** On an NFS share the array lists, with rules whose [ip] levels are
    known and the array accepting the update, [update_access] replaces
    the rule string of the file system by the rendering of the whole of
    [access_rules] in one update that sets nothing else; [add_rules] and
    [delete_rules] play no part.  The string is also logged, at error
    level. *)
Theorem update_access_full_replace
    self share access_rules add_rules delete_rules w fs rest :
  let name := _make_share_name share in
  let attributes :=
    mkFileSystem None None None None None
      (Some (mkNfsRule None None None (Some (rule_string access_rules))))
      None None in
  share_proto share = "NFS" →
  on_list_file_systems (_sys self) (calls w) [name] = inr (Some fs :: rest) →
  Forall (λ access, access_type access = "ip" →
                    known_level (access_level access)) access_rules →
  on_update_file_systems (_sys self) (calls w ++ [ListFileSystems [name]])
    name attributes = inr tt →
  update_access self share access_rules add_rules delete_rules w
  = (Returns tt,
     {| calls := calls w ++
          [ListFileSystems [name]; UpdateFileSystems name attributes];
        logged := logged w ++
          [(ERROR, "rules are " +:+ rule_string access_rules
                     +:+ ", info update nfs access")] |}).
Proof.
  intros name attributes Hproto Hreply Hlevels Hupdate.
  subst name attributes. rewrite Forall_forall in Hlevels.
  unfold update_access. rewrite Hproto.
  cbn [String.eqb Ascii.eqb Bool.eqb]. unfold _update_nfs_access.
  unfold purity_fb_to_manila_exceptions at 1.
  unfold try_except at 1, bind at 1, try_except at 1, bind at 1.
  rewrite (locate_filesystem_found _ _ _ _ _ Hreply). cbn.
  unfold bind at 1.
  rewrite (render_nfs_rules_acc _ _ _ Hlevels).
  change ("" +:+ rule_string access_rules) with (rule_string access_rules).
  unfold_monad. cbn. rewrite Hupdate. cbn.
  by rewrite <- app_assoc.
Qed.

Lemma update_access_full_replace_witness :
  update_access (driver_on (replying [] [Some held_fs] [] []) false)
    nfs_share rules_mixed [] rules_example start
  = (Returns tt,
     {| calls :=
          [ListFileSystems ["share-abc-manila"];
           UpdateFileSystems "share-abc-manila"
             (mkFileSystem None None None None None
                (Some (mkNfsRule None None None
                   (Some "10.0.0.1(rw,no_root_squash) 10.0.0.2(ro,no_root_squash) ")))
                None None)];
        logged :=
          [(ERROR, "rules are 10.0.0.1(rw,no_root_squash) 10.0.0.2(ro,no_root_squash) , info update nfs access")] |})
  ∧ calls (snd (update_access
                  (driver_on (replying [] [Some held_fs] [] []) false)
                  nfs_share [] rules_example [] start))
    = [ListFileSystems ["share-abc-manila"];
       UpdateFileSystems "share-abc-manila"
         (mkFileSystem None None None None None
            (Some (mkNfsRule None None None (Some ""))) None None)].
Proof.
  split.
  - refine (update_access_full_replace
              (driver_on (replying [] [Some held_fs] [] []) false)
              nfs_share rules_mixed [] rules_example start held_fs []
              eq_refl eq_refl _ eq_refl).
    apply (bool_decide_unpack _). vm_compute. exact I.
  - rewrite (update_access_full_replace
               (driver_on (replying [] [Some held_fs] [] []) false)
               nfs_share [] rules_example [] start held_fs []
               eq_refl eq_refl (Forall_nil_2 _) eq_refl).
    reflexivity.
Defined.

(** ** The access translator *)

(** The translator returns a level exactly for [rw] and [ro], each mapped
    to itself; the match is exact, so [RW] is refused like any other
    string, with the refused level in the exception. *)
Theorem access_level_translation access w :
  (_get_flashblade_access_level access w
   = (Returns (access_level access), w)
   ∧ known_level (access_level access))
  ∨ (_get_flashblade_access_level access w
     = (Raises (InvalidShareAccessLevel (access_level access)), w)
     ∧ access_level access ≠ "rw" ∧ access_level access ≠ "ro").
Proof.
  destruct (decide (known_level (access_level access))) as [Hk|Hk].
  - left. split; [by apply access_level_known|done].
  - right. split; [by apply access_level_unknown|].
    unfold known_level in Hk. split; intros Heq; apply Hk; auto.
Qed.

(** Rendering a concatenation is rendering the first list and then the
    second from where the first stopped: an exception in the first list
    ends the whole. *)
Theorem render_nfs_rules_app rules1 rules2 acc w :
  render_nfs_rules (rules1 ++ rules2) acc w
  = bind (render_nfs_rules rules1 acc)
         (λ nfs_rules, render_nfs_rules rules2 nfs_rules) w.
Proof.
  revert acc w. induction rules1 as [|access rest IH]; intros acc w;
    [reflexivity|].
  cbn [app render_nfs_rules].
  destruct (String.eqb (access_type access) "ip"); [|apply IH].
  unfold bind in *.
  destruct (_get_flashblade_access_level access w) as [[level|e] w'];
    [apply IH|reflexivity].
Qed.

(** ** Naming *)

Lemma string_length_app (s1 s2 : string) :
  String.length (s1 +:+ s2) = (String.length s1 + String.length s2)%nat.
Proof.
  induction s1 as [|a s1 IH]; [done|].
  change (S (String.length (s1 +:+ s2))
          = S (String.length s1 + String.length s2)).
  by rewrite IH.
Qed.

(** A common suffix can be cancelled. *)
Lemma string_app_inv_tail (s1 s2 s : string) :
  s1 +:+ s = s2 +:+ s → s1 = s2.
Proof.
  revert s2. induction s1 as [|a s1 IH]; intros [|b s2] Heq.
  - done.
  - apply (f_equal String.length) in Heq.
    change (String b s2 +:+ s) with (String b (s2 +:+ s)) in Heq.
    cbn [String.length] in Heq. rewrite !string_length_app in Heq.
    cbn [String.length] in Heq. lia.
  - apply (f_equal String.length) in Heq.
    change (String a s1 +:+ s) with (String a (s1 +:+ s)) in Heq.
    cbn [String.length] in Heq. rewrite !string_length_app in Heq.
    cbn [String.length] in Heq. lia.
  - change (String a (s1 +:+ s) = String b (s2 +:+ s)) in Heq.
    injection Heq as -> Heq. f_equal. by apply IH.
Qed.

(** Array-side names identify the orchestrator's ids: two shares have the
    same file-system name only if they have the same id, and two
    snapshots the same source name only if they have the same share
    instance id.  A snapshot's source is the file system of a share
    exactly when its share instance id is the share's id. *)
Theorem names_identify_ids :
  (∀ share1 share2,
      _make_share_name share1 = _make_share_name share2 ↔
      share_id share1 = share_id share2)
  ∧ (∀ snapshot1 snapshot2,
      _make_source_name snapshot1 = _make_source_name snapshot2 ↔
      snapshot_share_instance_id snapshot1
      = snapshot_share_instance_id snapshot2)
  ∧ (∀ share snapshot,
      _make_source_name snapshot = _make_share_name share ↔
      snapshot_share_instance_id snapshot = share_id share).
Proof.
  assert (∀ a b, "share-" +:+ a +:+ "-manila" = "share-" +:+ b +:+ "-manila"
                 ↔ a = b) as Hinj.
  { intros a b. split; [|by intros ->].
    intros Heq. apply (inj (String.app "share-")) in Heq.
    by apply string_app_inv_tail in Heq. }
  unfold _make_share_name, _make_source_name.
  split; [|split]; intros; apply Hinj.
Qed.

(** ** Set-up *)

Ltac unfold_setup :=
  unfold sbind, sret, sraise, slog, sdk, try_except_api, assign_api,
    assign_management_address, assign_data_address, assign_backend_name,
    safe_get in *.

Lemma safe_get_set configuration config_parameter v st :
  configuration !! config_parameter = Some v → v ≠ "" →
  _safe_get_from_config_or_fail configuration config_parameter st
  = (inr v, st).
Proof.
  intros Hget Hne. unfold _safe_get_from_config_or_fail, safe_get.
  rewrite Hget. by destruct v.
Qed.

Lemma safe_get_unset configuration config_parameter st :
  unset configuration config_parameter →
  _safe_get_from_config_or_fail configuration config_parameter st
  = (inl (BadConfigurationException
            (config_parameter +:+ " configuration parameter must be specified")),
     {| st_api := st_api st;
        st_management_address := st_management_address st;
        st_data_address := st_data_address st;
        st_backend_name := st_backend_name st;
        st_calls := st_calls st;
        st_logged := st_logged st ++
          [(ERROR, config_parameter
                     +:+ " configuration parameter must be specified")] |}).
Proof.
  unfold _safe_get_from_config_or_fail, safe_get.
  by intros [-> | ->].
Qed.

(** The two cases of reading a required option. *)
Lemma safe_get_cases configuration config_parameter st :
  (∃ v, configuration !! config_parameter = Some v ∧ v ≠ ""
        ∧ _safe_get_from_config_or_fail configuration config_parameter st
          = (inr v, st))
  ∨ (unset configuration config_parameter
     ∧ fst (_safe_get_from_config_or_fail configuration config_parameter st)
       = inl (BadConfigurationException
                (config_parameter
                   +:+ " configuration parameter must be specified"))
     ∧ st_logged (snd (_safe_get_from_config_or_fail configuration
                         config_parameter st))
       = st_logged st ++
           [(ERROR, config_parameter
                      +:+ " configuration parameter must be specified")]).
Proof.
  destruct (decide (unset configuration config_parameter)) as [Hu|Hs].
  - right. split; [done|]. by rewrite safe_get_unset.
  - left. unfold unset in Hs.
    destruct (configuration !! config_parameter) as [v|] eqn:Hget;
      [|naive_solver].
    exists v. split; [done|].
    assert (v ≠ "") as Hne by (intros ->; naive_solver).
    split; [done|]. by apply safe_get_set.
Qed.

(** [_safe_get_from_config_or_fail] returns the value of an option that
    is set to a non-empty string and changes nothing; an option that is
    not set, or set to the empty string, costs one error record and a
    [BadConfigurationException] whose reason names the option. *)
Theorem safe_get_or_fail configuration config_parameter st :
  (∃ v, configuration !! config_parameter = Some v ∧ v ≠ ""
        ∧ _safe_get_from_config_or_fail configuration config_parameter st
          = (inr v, st))
  ∨ (unset configuration config_parameter
     ∧ fst (_safe_get_from_config_or_fail configuration config_parameter st)
       = inl (BadConfigurationException
                (config_parameter
                   +:+ " configuration parameter must be specified"))
     ∧ st_logged (snd (_safe_get_from_config_or_fail configuration
                         config_parameter st))
       = st_logged st ++
           [(ERROR, config_parameter
                      +:+ " configuration parameter must be specified")]).
Proof.
  destruct (decide (unset configuration config_parameter)) as [Hu|Hs].
  - right. split; [done|]. by rewrite safe_get_unset.
  - left. destruct (safe_get_cases configuration config_parameter st)
      as [Hset|[Hu _]]; [exact Hset|done].
Qed.

(** Without the SDK module, [do_setup] raises before it reads an option
    or touches the array: the state is as it was. *)
Theorem do_setup_without_sdk platform configuration PurityFb_ st :
  do_setup false platform configuration PurityFb_ st
  = (inl (ManilaException
            "Missing 'purity_fb' python module, ensure the library is installed and available."),
     st).
Proof. reflexivity. Qed.

(** If a required option is unset, [do_setup] fails with a
    [BadConfigurationException] naming the first such option in the order
    api token, management address, data address, and no SDK entry point
    has been gone through: no session is opened on a partial
    configuration. *)
Theorem do_setup_incomplete_configuration
    platform configuration PurityFb_ st :
  Exists (unset configuration) required_options →
  ∃ pre config_parameter post,
    required_options = pre ++ config_parameter :: post
    ∧ Forall (λ p, ¬ unset configuration p) pre
    ∧ unset configuration config_parameter
    ∧ fst (do_setup true platform configuration PurityFb_ st)
      = inl (BadConfigurationException
               (config_parameter
                  +:+ " configuration parameter must be specified"))
    ∧ st_calls (snd (do_setup true platform configuration PurityFb_ st))
      = st_calls st
    ∧ st_backend_name (snd (do_setup true platform configuration PurityFb_ st))
      = st_backend_name st.
Proof.
  intros Hex.
  remember (do_setup true platform configuration PurityFb_ st) as run
    eqn:Hrun.
  unfold do_setup in Hrun. cbn [negb] in Hrun. unfold sbind at 1 in Hrun.
  destruct (safe_get_cases configuration "flashblade_api" st)
    as [(api & Hapi & Hapi_ne & Hrun1)|(Hu1 & _)].
  2:{ exists [], "flashblade_api", ["flashblade_mgmt_vip"; "flashblade_data_vip"].
      split; [done|]. split; [constructor|]. split; [done|].
      rewrite (safe_get_unset _ _ _ Hu1) in Hrun. by subst run. }
  assert (¬ unset configuration "flashblade_api") as Hs1.
  { intros [Hn|He]; congruence. }
  rewrite Hrun1 in Hrun. unfold sbind at 1, assign_api at 1 in Hrun.
  unfold sbind at 1 in Hrun.
  match type of Hrun with
  | context [_safe_get_from_config_or_fail _ "flashblade_mgmt_vip" ?st1] =>
      destruct (safe_get_cases configuration "flashblade_mgmt_vip" st1)
        as [(mgmt & Hmgmt & Hmgmt_ne & Hrun2)|(Hu2 & _)]
  end.
  2:{ exists ["flashblade_api"], "flashblade_mgmt_vip", ["flashblade_data_vip"].
      split; [done|]. split; [by repeat constructor|]. split; [done|].
      rewrite (safe_get_unset _ _ _ Hu2) in Hrun. by subst run. }
  assert (¬ unset configuration "flashblade_mgmt_vip") as Hs2.
  { intros [Hn|He]; congruence. }
  rewrite Hrun2 in Hrun.
  unfold sbind at 1, assign_management_address at 1 in Hrun.
  unfold sbind at 1 in Hrun.
  assert (unset configuration "flashblade_data_vip") as Hu3.
  { unfold required_options in Hex.
    repeat (apply Exists_cons in Hex as [Hex|Hex]; [done|]).
    by apply Exists_nil in Hex. }
  exists ["flashblade_api"; "flashblade_mgmt_vip"], "flashblade_data_vip", [].
  split; [done|]. split; [by repeat constructor|]. split; [done|].
  rewrite (safe_get_unset _ _ _ Hu3) in Hrun. by subst run.
Qed.

Lemma do_setup_incomplete_configuration_witness :
  fst (do_setup true "Linux" (delete "flashblade_mgmt_vip" config_example)
         accepting_16 before_setup)
  = inl (BadConfigurationException
           "flashblade_mgmt_vip configuration parameter must be specified")
  ∧ st_calls (snd (do_setup true "Linux"
                     (delete "flashblade_mgmt_vip" config_example)
                     accepting_16 before_setup)) = [].
Proof.
  destruct (do_setup_incomplete_configuration "Linux"
              (delete "flashblade_mgmt_vip" config_example)
              accepting_16 before_setup)
    as (pre & p & post & Hsplit & Hpre & Hunset & Hrun & Hcalls & _).
  - apply (bool_decide_unpack _). vm_compute. exact I.
  - split; [|exact Hcalls]. vm_compute. reflexivity.
Defined.

(** The run of a set-up that goes through. *)
Lemma do_setup_run
    platform configuration PurityFb_ st api mgmt data versions :
  configuration !! "flashblade_api" = Some api → api ≠ "" →
  configuration !! "flashblade_mgmt_vip" = Some mgmt → mgmt ≠ "" →
  configuration !! "flashblade_data_vip" = Some data → data ≠ "" →
  on_login (PurityFb_ mgmt) api = inr tt →
  on_api_versions (PurityFb_ mgmt) = inr versions →
  do_setup true platform configuration PurityFb_ st
  = (inr tt,
     {| st_api := Some api;
        st_management_address := Some mgmt;
        st_data_address := Some data;
        st_backend_name :=
          Some (match configuration !! "share_backend_name" with
                | Some (String a s) => String a s
                | _ => class_name
                end);
        st_calls := st_calls st ++
          [Connect mgmt; DisableVerifySsl; Login api; ApiVersions] ++
          (if bool_decide ("1.5" ∈ versions)
           then [SetUserAgent (_user_agent platform)] else []);
        st_logged := st_logged st ++ [(DEBUG, "setup complete")] |}).
Proof.
  intros Hapi Hapi_ne Hmgmt Hmgmt_ne Hdata Hdata_ne Hlogin Hversions.
  unfold do_setup. cbn [negb].
  unfold sbind at 1. rewrite (safe_get_set _ _ _ _ Hapi Hapi_ne).
  unfold sbind at 1, assign_api at 1.
  unfold sbind at 1. rewrite (safe_get_set _ _ _ _ Hmgmt Hmgmt_ne).
  unfold sbind at 1, assign_management_address at 1.
  unfold sbind at 1. rewrite (safe_get_set _ _ _ _ Hdata Hdata_ne).
  unfold_setup. cbn. rewrite Hlogin, Hversions. cbn.
  case_bool_decide; cbn; rewrite <- ?app_assoc; reflexivity.
Qed.

(** With the three required options set, a session that accepts the
    login and reports its API versions, [do_setup] completes: it connects
    to the management address, disables SSL verification, logs in with
    the API token, lists the versions and, only if [1.5] is among them,
    sets the user agent built from the platform.  The backend name is the
    configured [share_backend_name], or the class name when that option
    is unset. *)
Theorem do_setup_completes
    platform configuration PurityFb_ st api mgmt data versions :
  configuration !! "flashblade_api" = Some api → api ≠ "" →
  configuration !! "flashblade_mgmt_vip" = Some mgmt → mgmt ≠ "" →
  configuration !! "flashblade_data_vip" = Some data → data ≠ "" →
  on_login (PurityFb_ mgmt) api = inr tt →
  on_api_versions (PurityFb_ mgmt) = inr versions →
  ∃ backend_name,
    do_setup true platform configuration PurityFb_ st
    = (inr tt,
       {| st_api := Some api;
          st_management_address := Some mgmt;
          st_data_address := Some data;
          st_backend_name := Some backend_name;
          st_calls := st_calls st ++
            [Connect mgmt; DisableVerifySsl; Login api; ApiVersions] ++
            (if bool_decide ("1.5" ∈ versions)
             then [SetUserAgent ("OpenStack Manila FlashBladeShareDriver/10.0 ("
                                   +:+ platform +:+ ")")]
             else []);
          st_logged := st_logged st ++ [(DEBUG, "setup complete")] |})
    ∧ (unset configuration "share_backend_name" →
       backend_name = "FlashBladeShareDriver")
    ∧ (∀ v, configuration !! "share_backend_name" = Some v → v ≠ "" →
            backend_name = v).
Proof.
  intros Hapi Hapi_ne Hmgmt Hmgmt_ne Hdata Hdata_ne Hlogin Hversions.
  eexists. split.
  - rewrite (do_setup_run platform configuration PurityFb_ st api mgmt data
               versions) by done.
    reflexivity.
  - split.
    + unfold unset. by intros [-> | ->].
    + intros v -> Hne. by destruct v.
Qed.

Lemma do_setup_completes_witness :
  do_setup true "Linux" config_example accepting_16 before_setup
  = (inr tt,
     {| st_api := Some "T-0123";
        st_management_address := Some "10.0.0.2";
        st_data_address := Some "10.0.0.5";
        st_backend_name := Some "FlashBladeShareDriver";
        st_calls :=
          [Connect "10.0.0.2"; DisableVerifySsl; Login "T-0123"; ApiVersions;
           SetUserAgent "OpenStack Manila FlashBladeShareDriver/10.0 (Linux)"];
        st_logged := [(DEBUG, "setup complete")] |}).
Proof.
  destruct (do_setup_completes "Linux" config_example accepting_16
              before_setup "T-0123" "10.0.0.2" "10.0.0.5"
              ["1.0"; "1.5"; "1.6"])
    as (backend_name & Hrun & Hdefault & _);
    [first [by vm_compute | discriminate]..|].
  rewrite Hrun, Hdefault; [reflexivity|]. left. by vm_compute.
Defined.

(** An [ApiException] while logging in, or while listing the versions
    after a login that went through, ends [do_setup] with a
    [ManilaException] whose message embeds the SDK's text and ends with a
    newline; it is logged once, no user agent is set and no backend name
    assigned. *)
Theorem do_setup_login_fault
    platform configuration PurityFb_ st api mgmt data ex :
  configuration !! "flashblade_api" = Some api → api ≠ "" →
  configuration !! "flashblade_mgmt_vip" = Some mgmt → mgmt ≠ "" →
  configuration !! "flashblade_data_vip" = Some data → data ≠ "" →
  on_login (PurityFb_ mgmt) api = inl (ApiException ex)
  ∨ (on_login (PurityFb_ mgmt) api = inr tt
     ∧ on_api_versions (PurityFb_ mgmt) = inl (ApiException ex)) →
  let msg := "Exception when logging into the array: " +:+ ex +:+ newline in
  let st' := snd (do_setup true platform configuration PurityFb_ st) in
  fst (do_setup true platform configuration PurityFb_ st)
  = inl (ManilaException msg)
  ∧ st_logged st' = st_logged st ++ [(EXCEPTION, msg)]
  ∧ st_backend_name st' = st_backend_name st
  ∧ ∀ user_agent, SetUserAgent user_agent ∈ st_calls st' →
                  SetUserAgent user_agent ∈ st_calls st.
Proof.
  intros Hapi Hapi_ne Hmgmt Hmgmt_ne Hdata Hdata_ne Hfault msg st'.
  subst st' msg.
  remember (do_setup true platform configuration PurityFb_ st) as run
    eqn:Hrun.
  unfold do_setup in Hrun. cbn [negb] in Hrun.
  unfold sbind at 1 in Hrun.
  rewrite (safe_get_set _ _ _ _ Hapi Hapi_ne) in Hrun.
  unfold sbind at 1, assign_api at 1 in Hrun.
  unfold sbind at 1 in Hrun.
  rewrite (safe_get_set _ _ _ _ Hmgmt Hmgmt_ne) in Hrun.
  unfold sbind at 1, assign_management_address at 1 in Hrun.
  unfold sbind at 1 in Hrun.
  rewrite (safe_get_set _ _ _ _ Hdata Hdata_ne) in Hrun.
  unfold_setup. cbn in Hrun.
  destruct Hfault as [Hlogin|[Hlogin Hversions]].
  - rewrite Hlogin in Hrun. cbn in Hrun. subst run. cbn.
    repeat (split; [done|]). intros ua Hin.
    rewrite <- !app_assoc in Hin. cbn in Hin.
    apply elem_of_app in Hin as [Hin|Hin]; [done|].
    repeat (apply elem_of_cons in Hin as [Hin|Hin]; [discriminate|]).
    by apply not_elem_of_nil in Hin.
  - rewrite Hlogin, Hversions in Hrun. cbn in Hrun. subst run. cbn.
    repeat (split; [done|]). intros ua Hin.
    rewrite <- !app_assoc in Hin. cbn in Hin.
    apply elem_of_app in Hin as [Hin|Hin]; [done|].
    repeat (apply elem_of_cons in Hin as [Hin|Hin]; [discriminate|]).
    by apply not_elem_of_nil in Hin.
Qed.

Lemma do_setup_login_fault_witness :
  fst (do_setup true "Linux" config_example (λ _, refusing "401")
         before_setup)
  = inl (ManilaException
           ("Exception when logging into the array: 401" +:+ newline))
  ∧ st_calls (snd (do_setup true "Linux" config_example (λ _, refusing "401")
                     before_setup))
    = [Connect "10.0.0.2"; DisableVerifySsl; Login "T-0123"].
Proof.
  destruct (do_setup_login_fault "Linux" config_example (λ _, refusing "401")
              before_setup "T-0123" "10.0.0.2" "10.0.0.5" "401")
    as (Hrun & _);
    [first [by vm_compute | discriminate | by left]..|].
  split; [|by vm_compute]. rewrite Hrun. by vm_compute.
Defined.

(** ** Set-up, then a lifecycle operation *)

(** The driver a completed set-up leaves exports NFS shares on the
    configured data address: with the array answering the version listing
    and accepting the create, [create_share] returns
    [<flashblade_data_vip>:/share-<id>-manila]. *)
Theorem setup_then_create_share
    platform configuration PurityFb_ st api mgmt data versions
    sys eradicate share w array_versions :
  configuration !! "flashblade_api" = Some api → api ≠ "" →
  configuration !! "flashblade_mgmt_vip" = Some mgmt → mgmt ≠ "" →
  configuration !! "flashblade_data_vip" = Some data → data ≠ "" →
  on_login (PurityFb_ mgmt) api = inr tt →
  on_api_versions (PurityFb_ mgmt) = inr versions →
  share_proto share = "NFS" →
  on_list_versions sys (calls w) = inr array_versions →
  (∀ fs, on_create_file_systems sys (calls w ++ [ListVersions]) fs = inr tt) →
  ∃ self,
    driver_after_setup sys eradicate
      (snd (do_setup true platform configuration PurityFb_ st)) = Some self
    ∧ fst (create_share self share w)
      = Returns (data +:+ ":/share-" +:+ share_id share +:+ "-manila").
Proof.
  intros Hapi Hapi_ne Hmgmt Hmgmt_ne Hdata Hdata_ne Hlogin Hversions
    Hproto Harray Hcreate.
  rewrite (do_setup_run platform configuration PurityFb_ st api mgmt data
             versions) by done.
  unfold driver_after_setup. cbn [snd st_data_address st_backend_name].
  eexists. split; [reflexivity|].
  unfold create_share. rewrite Hproto. cbn [String.eqb Ascii.eqb Bool.eqb].
  unfold _get_full_nfs_export_path. unfold_monad. cbn.
  rewrite Harray. cbn. rewrite Hcreate. cbn. reflexivity.
Qed.

Lemma setup_then_create_share_witness :
  ∃ self,
    driver_after_setup (replying ["1.5"; "1.6"] [] [] []) false
      (snd (do_setup true "Linux" config_example accepting_16 before_setup))
    = Some self
    ∧ fst (create_share self nfs_share start)
      = Returns "10.0.0.5:/share-abc-manila".
Proof.
  exact (setup_then_create_share "Linux" config_example accepting_16
           before_setup "T-0123" "10.0.0.2" "10.0.0.5" ["1.0"; "1.5"; "1.6"]
           (replying ["1.5"; "1.6"] [] [] []) false nfs_share start
           ["1.5"; "1.6"]
           eq_refl ltac:(discriminate) eq_refl ltac:(discriminate)
           eq_refl ltac:(discriminate) eq_refl eq_refl eq_refl eq_refl
           (λ _, eq_refl)).
Defined.

(** ** Exporting a file system *)

(** [_create_filesystem_export] returns the NFS location of the export
    path the SDK object gives, not admin-only and with empty metadata,
    without an array call of its own; an [ApiException] of either method
    becomes a [ShareBackendException]. *)
Theorem create_filesystem_export_location self flashblade_filesystem w :
  (∀ flashblade_export export_path,
      on_add_export flashblade_filesystem = inr flashblade_export →
      on_get_export_path flashblade_export = inr export_path →
      _create_filesystem_export self flashblade_filesystem w
      = (Returns {| path := data_address self +:+ ":/" +:+ export_path;
                    is_admin_only := false; metadata := ∅ |}, w))
  ∧ (∀ str,
      on_add_export flashblade_filesystem = inl (ApiException str)
      ∨ (∃ flashblade_export,
            on_add_export flashblade_filesystem = inr flashblade_export
            ∧ on_get_export_path flashblade_export = inl (ApiException str)) →
      _create_filesystem_export self flashblade_filesystem w
      = (Raises (ShareBackendException
                   ("Caught exception from purity_fb: " +:+ str)),
         {| calls := calls w;
            logged := logged w ++
              [(EXCEPTION, "Caught exception from purity_fb: " +:+ str)] |})).
Proof.
  unfold _create_filesystem_export, _get_full_nfs_export_path, method.
  unfold_monad. split.
  - intros flashblade_export export_path -> ->. reflexivity.
  - intros str [-> | (flashblade_export & -> & ->)]; reflexivity.
Qed.
